(** * Recruitment-Crew notebook (Day I/crew_ollama_deepseek.ipynb)

    A shallow embedding of the notebook's own logic: the operator-input
    cell, the six-record [candidate_db], the four task declarations, the
    sequential crew run of [main] and the display cell.  The language
    model behind the agents is an external endpoint; it is a parameter
    of the development. *)

From Stdlib Require Import Ascii String.
From stdpp Require Import base numbers list strings gmap.

Open Scope string_scope.
Open Scope Z_scope.

(** ** Python string primitives used by the input cell *)

Module PyStr.

(** [str.isspace] on the ASCII range: TAB..CR, FS..US and the blank.
    Strings are byte strings here, meant for lines of ASCII characters;
    white space outside ASCII (which [str.strip] also removes) is not part
    of the model. *)
Definition is_space (c : ascii) : bool :=
  let n := nat_of_ascii c in
  ((9 <=? n) && (n <=? 13) || (28 <=? n) && (n <=? 31) || (n =? 32))%nat.

Definition is_digit (c : ascii) : bool :=
  let n := nat_of_ascii c in ((48 <=? n) && (n <=? 57))%nat.

Definition digit_value (c : ascii) : Z := Z.of_nat (nat_of_ascii c) - 48.

Definition is_empty (s : string) : bool :=
  match s with EmptyString => true | String _ _ => false end.

Fixpoint lstrip (s : string) : string :=
  match s with
  | EmptyString => EmptyString
  | String c r => if is_space c then lstrip r else s
  end.

Fixpoint rstrip (s : string) : string :=
  match s with
  | EmptyString => EmptyString
  | String c r =>
      let r' := rstrip r in
      if is_space c && is_empty r' then EmptyString else String c r'
  end.

(** [s.strip()] *)
Definition strip (s : string) : string := rstrip (lstrip s).

(** [s.split(",")]: an explicit separator never yields the empty list. *)
Fixpoint split_comma (s : string) : list string :=
  match s with
  | EmptyString => [EmptyString]
  | String c r =>
      if Ascii.eqb c "," then EmptyString :: split_comma r
      else match split_comma r with
           | h :: t => String c h :: t
           | [] => [String c EmptyString]
           end
  end.

Fixpoint count_commas (s : string) : nat :=
  match s with
  | EmptyString => 0%nat
  | String c r => ((if Ascii.eqb c "," then 1 else 0) + count_commas r)%nat
  end.

(** The digit part of an [int] literal in base 10: decimal digits, with
    single underscores allowed between two digits.  [after_digit] tells
    whether the previous character was a digit. *)
Fixpoint int_digits (acc : Z) (after_digit : bool) (s : string) : option Z :=
  match s with
  | EmptyString => if after_digit then Some acc else None
  | String c r =>
      if is_digit c then int_digits (10 * acc + digit_value c) true r
      else if Ascii.eqb c "_" && after_digit then int_digits acc false r
      else None
  end.

(** The white space [int] skips around a literal (C's [isspace]):
    TAB..CR and the blank.  Unlike [strip], [int] does not skip FS..US. *)
Definition is_int_space (c : ascii) : bool :=
  let n := nat_of_ascii c in
  ((9 <=? n) && (n <=? 13) || (n =? 32))%nat.

Fixpoint int_lstrip (s : string) : string :=
  match s with
  | EmptyString => EmptyString
  | String c r => if is_int_space c then int_lstrip r else s
  end.

Fixpoint int_rstrip (s : string) : string :=
  match s with
  | EmptyString => EmptyString
  | String c r =>
      let r' := int_rstrip r in
      if is_int_space c && is_empty r' then EmptyString else String c r'
  end.

Definition int_strip (s : string) : string := int_rstrip (int_lstrip s).

(** The number of decimal digits in a literal, and the most [int]
    converts ([sys.int_info.default_max_str_digits]). *)
Fixpoint digit_count (s : string) : Z :=
  match s with
  | EmptyString => 0
  | String c r => (if is_digit c then 1 else 0) + digit_count r
  end.

Definition max_str_digits : Z := 4300.

(** [int(s)] for a line of ASCII characters: the white space around the
    literal is skipped, then an optional sign, then the digits; a literal
    of more than [max_str_digits] digits is refused.  [None] stands for the
    [ValueError] Python raises.  (For a line with characters outside
    ASCII Python first maps Unicode digits and white space to ASCII; that
    step is not part of the model, which rejects such a line.) *)
Definition python_int (s : string) : option Z :=
  let t := int_strip s in
  if max_str_digits <? digit_count t then None
  else match t with
       | String "+" r => int_digits 0 false r
       | String "-" r => Z.opp <$> int_digits 0 false r
       | t => int_digits 0 false t
       end.

End PyStr.

(** ** Data model *)

(** One dictionary of [candidate_db]. *)
Record CandidateRecord := {
  cr_id : string;
  cr_full_name : string;
  cr_email : string;
  cr_role : string;
  cr_experience_years : Z;
  cr_budget : Z;
  cr_stack : list string
}.

(** The [candidate_input] dictionary built from the operator's answers. *)
Record CandidateInput := {
  ci_role : string;
  ci_experience_years : Z;
  ci_budget : Z;
  ci_stack : list string
}.

Definition c_101 : CandidateRecord :=
  {| cr_id := "c-101"; cr_full_name := "Alex Ivanov";
     cr_email := "alex@devmail.com"; cr_role := "Full-Stack Developer";
     cr_experience_years := 5; cr_budget := 4000;
     cr_stack := ["React"; "Node.js"; "PostgreSQL"; "Docker"] |}.

Definition c_202 : CandidateRecord :=
  {| cr_id := "c-202"; cr_full_name := "Maria Petrova";
     cr_email := "maria@devmail.com"; cr_role := "Backend Developer";
     cr_experience_years := 4; cr_budget := 3500;
     cr_stack := ["Node.js"; "MongoDB"; "Docker"; "AWS"] |}.

Definition c_303 : CandidateRecord :=
  {| cr_id := "c-303"; cr_full_name := "Oleg Smirnov";
     cr_email := "oleg.smirnov@devmail.com"; cr_role := "DevOps Engineer";
     cr_experience_years := 6; cr_budget := 4500;
     cr_stack := ["AWS"; "Docker"; "Kubernetes"; "Terraform"; "Ansible"] |}.

Definition c_404 : CandidateRecord :=
  {| cr_id := "c-404"; cr_full_name := "Elena Kozlova";
     cr_email := "elena.kozlova@devmail.com"; cr_role := "Frontend Developer";
     cr_experience_years := 3; cr_budget := 3200;
     cr_stack := ["Vue.js"; "TypeScript"; "TailwindCSS"; "Vite"] |}.

Definition c_505 : CandidateRecord :=
  {| cr_id := "c-505"; cr_full_name := "Dmitry Lebedev";
     cr_email := "dmitry.lebedev@devmail.com"; cr_role := "Data Engineer";
     cr_experience_years := 5; cr_budget := 4800;
     cr_stack := ["Python"; "Spark"; "Airflow"; "Kafka"; "Redshift"] |}.

Definition c_606 : CandidateRecord :=
  {| cr_id := "c-606"; cr_full_name := "Anna Baranov";
     cr_email := "anna.baranov@devmail.com"; cr_role := "QA Automation Engineer";
     cr_experience_years := 4; cr_budget := 3300;
     cr_stack := ["Java"; "Selenium"; "Cypress"; "JUnit"; "Docker"] |}.

(** The list literal bound to [candidate_db]. *)
Definition candidate_db : list CandidateRecord :=
  [c_101; c_202; c_303; c_404; c_505; c_606].

(** The two hard constraints as [task_match] words them:
    "candidate's budget ≤ required; experience ≥ required". *)
Definition budget_ok (inp : CandidateInput) (r : CandidateRecord) : bool :=
  cr_budget r <=? ci_budget inp.

Definition experience_ok (inp : CandidateInput) (r : CandidateRecord) : bool :=
  ci_experience_years inp <=? cr_experience_years r.

Definition qualifies (inp : CandidateInput) (r : CandidateRecord) : bool :=
  budget_ok inp r && experience_ok inp r.

Definition qualifying (inp : CandidateInput) (db : list CandidateRecord)
  : list CandidateRecord :=
  List.filter (qualifies inp) db.

(** ** Agents and tasks *)

Inductive AgentId := agent_1 | agent_2 | agent_3 | agent_4.

(** The four [Task] objects, named after the variables that hold them. *)
Inductive TaskId := task_profile | task_match | task_offer | task_send.

#[global] Instance TaskId_eq_dec : EqDecision TaskId.
Proof. solve_decision. Defined.

Definition TaskId_to_nat (t : TaskId) : nat :=
  match t with
  | task_profile => 0 | task_match => 1 | task_offer => 2 | task_send => 3
  end%nat.

Definition TaskId_of_nat (n : nat) : TaskId :=
  match n with
  | O => task_profile | 1%nat => task_match | 2%nat => task_offer
  | _ => task_send
  end.

#[global] Instance TaskId_countable : Countable TaskId.
Proof.
  apply (inj_countable' TaskId_to_nat TaskId_of_nat).
  intros []; reflexivity.
Defined.

(** The instruction text of a task.  Only the profiler's text depends on
    run-time data: its f-string interpolates [candidate_input]. *)
Inductive Description :=
| ProfileText (ci : CandidateInput)
| MatchText
| OfferText
| SendText.

(** [input_data={"candidate_db": candidate_db}] holds a reference to the
    global list object, not a copy. *)
Inductive DataRef := Ref_candidate_db.

Record Task := {
  t_id : TaskId;
  t_description : Description;
  t_expected_output : string;
  t_agent : AgentId;
  t_context : option (list TaskId);   (* [None]: no [context=] keyword *)
  t_input_data : option DataRef;
  t_output_key : string
}.

(** The four [Task(...)] calls of the task cell.  The agent (and, for the
    matcher, the data reference) is what the cell reads from the global
    namespace at that point. *)
Definition mk_task_profile (ci : CandidateInput) (a : AgentId) : Task :=
  {| t_id := task_profile; t_description := ProfileText ci;
     t_expected_output := "JSON object candidate_profile";
     t_agent := a; t_context := None; t_input_data := None;
     t_output_key := "candidate_profile" |}.

Definition mk_task_match (a : AgentId) (data : DataRef) : Task :=
  {| t_id := task_match; t_description := MatchText;
     t_expected_output := "JSON matched_candidate";
     t_agent := a; t_context := Some [task_profile];
     t_input_data := Some data;
     t_output_key := "matched_candidate" |}.

Definition mk_task_offer (a : AgentId) : Task :=
  {| t_id := task_offer; t_description := OfferText;
     t_expected_output := "String offer_email";
     t_agent := a; t_context := Some [task_profile; task_match];
     t_input_data := None; t_output_key := "offer_email" |}.

Definition mk_task_send (a : AgentId) : Task :=
  {| t_id := task_send; t_description := SendText;
     t_expected_output := "String send_status";
     t_agent := a; t_context := Some [task_offer; task_match];
     t_input_data := None; t_output_key := "send_status" |}.

(** What one step hands to its agent: the task's texts, the outputs of
    the tasks it may see, and the auxiliary data it was declared with. *)
Record Request := {
  rq_task : TaskId;
  rq_agent : AgentId;
  rq_description : Description;
  rq_expected_output : string;
  rq_context : list (TaskId * string);
  rq_input_data : option (list CandidateRecord)
}.

(** The record a step leaves behind. *)
Record StepResult := {
  sr_task : TaskId;
  sr_context : list (TaskId * string);
  sr_raw : string
}.

(** ** The kernel: global namespace, heap objects and output channels *)

Inductive Value :=
| VOpaque                                  (* modules, classes, functions, the LLM handle *)
| VAgent (a : AgentId)
| VStore                                   (* the list object of [candidate_db] *)
| VStr (s : string)
| VInput (ci : CandidateInput)
| VTask (t : Task)
| VDict (candidate status : string)        (* the dictionary [main] returns *)
| VTaskOutput (raw : string).              (* an object with a [raw] attribute *)

Inductive PyExc :=
| ValueError (literal : string)            (* [int] on a non-integer literal *)
| NameError (name : string)
| AttributeError (attr : string)
| TypeError
| EndpointError (msg : string).            (* raised inside a task execution *)

(** [w_stdout] holds the lines the cells write themselves, with [print]
    and with the prompts of [input].  What the framework logs to the
    console while a verbose crew executes a task belongs to that
    execution, which is external here, and is not recorded. *)
Record World := {
  w_globals : gmap string Value;           (* names bound in the notebook *)
  w_db : list CandidateRecord;             (* contents of the [candidate_db] list *)
  w_outputs : gmap TaskId string;          (* [task.output.raw] of each task *)
  w_stdout : list string;                  (* lines written by the cells *)
  w_display : list string;                 (* rich output area ([display]) *)
  w_calls : list Request                   (* task executions started so far *)
}.

Definition fresh_kernel : World :=
  {| w_globals := ∅; w_db := []; w_outputs := ∅;
     w_stdout := []; w_display := []; w_calls := [] |}.

(** Computations that read and write the kernel and may raise; the kernel
    state survives an exception, as it does in a notebook. *)
Definition Py (A : Type) : Type := World → (PyExc + A) * World.

#[global] Instance py_ret : MRet Py := λ A a w, (inr a, w).

#[global] Instance py_bind : MBind Py := λ A B k m w,
  match m w with
  | (inl e, w') => (inl e, w')
  | (inr a, w') => k a w'
  end.

Definition raise {A} (e : PyExc) : Py A := λ w, (inl e, w).

Definition bind_global (name : string) (v : Value) : Py unit :=
  λ w, (inr (),
        {| w_globals := <[name := v]> (w_globals w); w_db := w_db w;
           w_outputs := w_outputs w; w_stdout := w_stdout w;
           w_display := w_display w; w_calls := w_calls w |}).

Fixpoint bind_globals (names : list string) (v : Value) : Py unit :=
  match names with
  | [] => mret ()
  | n :: rest => bind_global n v;; bind_globals rest v
  end.

Definition read_global (name : string) : Py Value :=
  λ w, match w_globals w !! name with
       | Some v => (inr v, w)
       | None => (inl (NameError name), w)
       end.

Definition nl : string := String (ascii_of_nat 10) EmptyString.

Definition write (text : string) : Py unit :=
  λ w, (inr (),
        {| w_globals := w_globals w; w_db := w_db w;
           w_outputs := w_outputs w; w_stdout := w_stdout w ++ [text];
           w_display := w_display w; w_calls := w_calls w |}).

(** [print(a)] and [print(a, b)]: blank between arguments, newline at the end. *)
Definition print (text : string) : Py unit := write (text ++ nl).

Definition print2 (a b : string) : Py unit := write (a ++ " " ++ b ++ nl).

(** [input(prompt)]: the prompt goes to standard output, the operator's
    line is returned. *)
Definition input (prompt answer : string) : Py string :=
  write prompt;; mret answer.

Definition display_markdown (text : string) : Py unit :=
  λ w, (inr (),
        {| w_globals := w_globals w; w_db := w_db w;
           w_outputs := w_outputs w; w_stdout := w_stdout w;
           w_display := w_display w ++ [text]; w_calls := w_calls w |}).

Definition create_store (records : list CandidateRecord) : Py unit :=
  λ w, (inr (),
        {| w_globals := w_globals w; w_db := records;
           w_outputs := w_outputs w; w_stdout := w_stdout w;
           w_display := w_display w; w_calls := w_calls w |}).

Definition set_output (t : TaskId) (raw : string) : Py unit :=
  λ w, (inr (),
        {| w_globals := w_globals w; w_db := w_db w;
           w_outputs := <[t := raw]> (w_outputs w); w_stdout := w_stdout w;
           w_display := w_display w; w_calls := w_calls w |}).

(** [task.output.raw]; a task that has not run has [output = None]. *)
Definition output_raw (t : TaskId) : Py string :=
  λ w, match w_outputs w !! t with
       | Some raw => (inr raw, w)
       | None => (inl (AttributeError "raw"), w)
       end.

(** [x.raw] *)
Definition attr_raw (v : Value) : Py string :=
  match v with
  | VTaskOutput raw => mret raw
  | _ => raise (AttributeError "raw")
  end.

Definition read_agent (name : string) : Py AgentId :=
  v ← read_global name;
  match v with VAgent a => mret a | _ => raise TypeError end.

Definition read_task (name : string) : Py Task :=
  v ← read_global name;
  match v with VTask t => mret t | _ => raise TypeError end.

Definition read_store_ref (name : string) : Py DataRef :=
  v ← read_global name;
  match v with VStore => mret Ref_candidate_db | _ => raise TypeError end.

(** [int(s)] as a statement. *)
Definition py_int (s : string) : Py Z :=
  match PyStr.python_int s with
  | Some z => mret z
  | None => raise (ValueError s)
  end.

(** ** The cells *)

(** The four lines the operator types. *)
Record Operator := {
  role_inp : string;
  exp_inp : string;
  budget_inp : string;
  stack_inp_raw : string
}.

(** Import and set-up cells before the agents: they only bind names (shell
    and package-manager lines bind nothing) and print one separator.  The
    thread that keeps the model server running shares no data with the
    pipeline and is left out. *)
Definition cell_setup : Py unit :=
  bind_globals ["subprocess"; "requests"; "json"; "threading"; "pprint";
                "run_ollama"; "thread"; "warnings"] VOpaque;;
  print "---";;
  bind_globals ["os"; "getpass"; "Agent"; "Task"; "Crew"; "Process";
                "dedent"; "ChatOllama"] VOpaque.

(** The agents cell, which also creates the candidate list. *)
Definition cell_agents : Py unit :=
  bind_globals ["Agent"; "dedent"; "ChatOllama"; "LLM"; "llm"] VOpaque;;
  bind_global "agent_1" (VAgent agent_1);;
  bind_global "agent_2" (VAgent agent_2);;
  bind_global "agent_3" (VAgent agent_3);;
  bind_global "agent_4" (VAgent agent_4);;
  create_store [c_101; c_202; c_303; c_404; c_505; c_606];;
  bind_global "candidate_db" VStore.

(** The dictionary display [candidate_input = {...}]: values are evaluated
    in the order they are written. *)
Definition make_candidate_input (role exp budget stack : string)
  : Py CandidateInput :=
  let r := PyStr.strip role in
  e ← py_int exp;
  b ← py_int budget;
  mret {| ci_role := r; ci_experience_years := e; ci_budget := b;
          ci_stack := PyStr.strip <$> PyStr.split_comma stack |}.

Definition greeting : string := "👋 Добро пожаловать в Recruitment-Crew".
Definition prompt_role : string := "🧑‍💻 Роль кандидата?" ++ nl ++ ">> ".
Definition prompt_exp : string := "📈 Опыт кандидата (лет)?" ++ nl ++ ">> ".
Definition prompt_budget : string := "💰 Желаемая зарплата?" ++ nl ++ ">> ".
Definition prompt_stack : string := "🛠 Стек (через запятую)?" ++ nl ++ ">> ".

Definition input_received (op : Operator) : string :=
  "✔️ Input received:" ++ nl ++ "role: " ++ role_inp op ++ nl ++
  "experience_years: " ++ exp_inp op ++ nl ++
  "budget: " ++ budget_inp op ++ nl ++ "stack: " ++ stack_inp_raw op.

(** The task cell: operator input, then the four task declarations. *)
Definition cell_tasks (op : Operator) : Py unit :=
  bind_globals ["Task"; "dedent"] VOpaque;;
  print greeting;;
  role ← input prompt_role (role_inp op);
  bind_global "role_inp" (VStr role);;
  exp ← input prompt_exp (exp_inp op);
  bind_global "exp_inp" (VStr exp);;
  budget ← input prompt_budget (budget_inp op);
  bind_global "budget_inp" (VStr budget);;
  stack ← input prompt_stack (stack_inp_raw op);
  bind_global "stack_inp_raw" (VStr stack);;
  ci ← make_candidate_input role exp budget stack;
  bind_global "candidate_input" (VInput ci);;
  print (input_received op);;
  a1 ← read_agent "agent_1";
  bind_global "task_profile" (VTask (mk_task_profile ci a1));;
  a2 ← read_agent "agent_2";
  data ← read_store_ref "candidate_db";
  bind_global "task_match" (VTask (mk_task_match a2 data));;
  a3 ← read_agent "agent_3";
  bind_global "task_offer" (VTask (mk_task_offer a3));;
  a4 ← read_agent "agent_4";
  bind_global "task_send" (VTask (mk_task_send a4)).

(** The cells that come before [main]. *)
Definition input_cells (op : Operator) : Py unit :=
  cell_setup;; cell_agents;; cell_tasks op.

Section Crew.

(** One execution of a task by its agent: everything the orchestration
    framework and the model server do with a request.  The first
    argument is the number of executions started before this one, so
    that answers may vary from call to call; [inl] is an exception. *)
Variable endpoint : nat → Request → string + string.

Definition call_endpoint (rq : Request) : Py string :=
  λ w, let w' := {| w_globals := w_globals w; w_db := w_db w;
                    w_outputs := w_outputs w; w_stdout := w_stdout w;
                    w_display := w_display w;
                    w_calls := w_calls w ++ [rq] |} in
       match endpoint (length (w_calls w)) rq with
       | inl msg => (inl (EndpointError msg), w')
       | inr raw => (inr raw, w')
       end.

(** The context of a task: the outputs of the tasks listed in
    [context=] that have an output, in the listed order; without the
    keyword, the outputs produced so far. *)
Definition get_context (t : Task) (done : list StepResult)
  : Py (list (TaskId * string)) :=
  λ w, (inr match t_context t with
            | None => (λ r, (sr_task r, sr_raw r)) <$> done
            | Some deps => omap (λ d, (d,.) <$> w_outputs w !! d) deps
            end, w).

Definition deref (r : option DataRef) : Py (option (list CandidateRecord)) :=
  λ w, (inr match r with
            | Some Ref_candidate_db => Some (w_db w)
            | None => None
            end, w).

Definition execute_task (t : Task) (done : list StepResult) : Py StepResult :=
  ctx ← get_context t done;
  data ← deref (t_input_data t);
  raw ← call_endpoint {| rq_task := t_id t; rq_agent := t_agent t;
                         rq_description := t_description t;
                         rq_expected_output := t_expected_output t;
                         rq_context := ctx; rq_input_data := data |};
  set_output (t_id t) raw;;
  mret {| sr_task := t_id t; sr_context := ctx; sr_raw := raw |}.

(** [Process.sequential]: the tasks in list order, one after the other. *)
Fixpoint execute_tasks (ts : list Task) (done : list StepResult)
  : Py (list StepResult) :=
  match ts with
  | [] => mret done
  | t :: rest =>
      r ← execute_task t done;
      execute_tasks rest (done ++ [r])
  end.

(** [crew.kickoff()] *)
Definition kickoff (ts : list Task) : Py (list StepResult) :=
  execute_tasks ts [].

Definition task_raw (name : string) : Py string :=
  t ← read_task name;
  output_raw (t_id t).

Definition main : Py Value :=
  read_global "Crew";;
  read_agent "agent_1";; read_agent "agent_2";;
  read_agent "agent_3";; read_agent "agent_4";;
  t1 ← read_task "task_profile";
  t2 ← read_task "task_match";
  t3 ← read_task "task_offer";
  t4 ← read_task "task_send";
  read_global "Process";;
  read_global "llm";;
  kickoff [t1; t2; t3; t4];;
  profile_raw ← task_raw "task_profile";
  match_raw ← task_raw "task_match";
  offer_md ← task_raw "task_offer";
  send_line ← task_raw "task_send";
  print2 (nl ++ "👤 Подходящий кандидат:" ++ nl) match_raw;;
  print2 (nl ++ "📤 Статус отправки:" ++ nl) send_line;;
  mret (VDict match_raw send_line).

Definition cell_main : Py unit :=
  bind_global "Process" VOpaque;;
  bind_global "main" VOpaque;;
  result ← main;
  bind_global "result" result.

(** The display cell. *)
Definition cell_display : Py unit :=
  bind_globals ["display"; "Markdown"] VOpaque;;
  final_status ← read_global "final_status";
  markdown_text ← attr_raw final_status;
  bind_global "markdown_text" (VStr markdown_text);;
  display_markdown markdown_text.

(** The pipeline run proper: everything up to and including [main]. *)
Definition run (op : Operator) : Py unit :=
  input_cells op;; cell_main.

(** All code cells in order, as "Run all" executes them. *)
Definition notebook (op : Operator) : Py unit :=
  run op;; cell_display.

End Crew.

(** ** Sample operators and endpoints *)

Definition op_backend : Operator :=
  {| role_inp := "Backend Developer"; exp_inp := "4";
     budget_inp := "4000"; stack_inp_raw := "Node.js" |}.

Definition op_bad_budget : Operator :=
  {| role_inp := "Backend Developer"; exp_inp := "4";
     budget_inp := "four thousand"; stack_inp_raw := "Node.js" |}.

Definition send_confirmation : string :=
  "Offer sent to Maria Petrova <maria@devmail.com> | status: success".

(** An endpoint that answers every request. *)
Definition canned_endpoint (n : nat) (rq : Request) : string + string :=
  inr match rq_task rq with
      | task_profile => "{candidate_profile}"
      | task_match => "{matched_candidate: c-202}"
      | task_offer => "Dear Maria, ..."
      | task_send => send_confirmation
      end.

(** An endpoint that raises on its [k]-th execution (counting from 0). *)
Definition failing_endpoint (k : nat) (n : nat) (rq : Request)
  : string + string :=
  if (n =? k)%nat then inl "connection refused" else canned_endpoint n rq.

(** The two profiles the specification names. *)
Definition inp_backend : CandidateInput :=
  {| ci_role := "Backend Developer"; ci_experience_years := 4;
     ci_budget := 4000; ci_stack := ["Node.js"] |}.

Definition inp_devops : CandidateInput :=
  {| ci_role := "DevOps Engineer"; ci_experience_years := 6;
     ci_budget := 4000; ci_stack := [] |}.

(** ** The matching policy *)

Module MatchingRule.

(** Modelled from the spec: the Candidate Matching Rule of section 4.2.
    The notebook contains no executable matching function: [task_match]
    states the criteria in prose and leaves the choice to the agent.
    The definitions of this module follow the specification's words
    (primary criterion, the two hard constraints, tie-break by stack
    overlap and then by lower budget); the hard constraints are
    [qualifies] and the store is [candidate_db], both taken from the
    notebook.  [contains s p]: [p] is a substring of [s]. *)
Fixpoint contains (s p : string) : bool :=
  String.prefix p s ||
  match s with
  | EmptyString => false
  | String _ r => contains r p
  end.

(** Modelled from the spec: "role equality or substring"; the matching
    function is missing from the notebook. *)
Definition role_match (inp : CandidateInput) (r : CandidateRecord) : bool :=
  contains (cr_role r) (ci_role inp) || contains (ci_role inp) (cr_role r).

(** Modelled from the spec: "stack overlap count", the record's skills
    that the profile asks for; the matching function is missing from the
    notebook. *)
Definition overlap (inp : CandidateInput) (r : CandidateRecord) : nat :=
  length (List.filter (λ s, bool_decide (s ∈ ci_stack inp)) (cr_stack r)).

(** Modelled from the spec: "Primary criterion: role equality or
    substring/stack overlap"; the matching function is missing from the
    notebook. *)
Definition primary (inp : CandidateInput) (r : CandidateRecord) : bool :=
  role_match inp r || (0 <? overlap inp r)%nat.

(** Modelled from the spec: the preference order of the missing matching
    function, "prefer higher stack overlap count, then lower budget"
    after the primary criterion.  [better inp a b]: [a] is strictly
    preferred to [b]. *)
Definition better (inp : CandidateInput) (a b : CandidateRecord) : bool :=
  if negb (Bool.eqb (primary inp a) (primary inp b)) then primary inp a
  else if negb (overlap inp a =? overlap inp b)%nat
       then (overlap inp b <? overlap inp a)%nat
       else cr_budget a <? cr_budget b.

(** Modelled from the spec: the same preference as a proposition, the
    lexicographic comparison of (primary criterion, overlap count,
    budget); the matching function is missing from the notebook. *)
Definition prefers (inp : CandidateInput) (a b : CandidateRecord) : Prop :=
  Z.b2z (primary inp b) < Z.b2z (primary inp a) ∨
  (Z.b2z (primary inp a) = Z.b2z (primary inp b) ∧
   ((overlap inp b < overlap inp a)%nat ∨
    (overlap inp a = overlap inp b ∧ cr_budget a < cr_budget b))).

(** Modelled from the spec: one step of the missing matching function,
    keeping the preferred of the best record so far and the next one. *)
Definition pick (inp : CandidateInput) (best : option CandidateRecord)
    (r : CandidateRecord) : option CandidateRecord :=
  match best with
  | None => Some r
  | Some b => if better inp r b then Some r else Some b
  end.

(** Modelled from the spec: the missing matching function.  The selected
    record is the most preferred among the records that meet both hard
    constraints; [None] when there is none. *)
Definition select (inp : CandidateInput) (db : list CandidateRecord)
  : option CandidateRecord :=
  foldl (pick inp) None (qualifying inp db).

(** Modelled from the spec: the policy of the missing matching function
    as a relation.  [r] is an admissible choice when it is in the store,
    meets both hard constraints, and no record that meets them is
    strictly preferred to it. *)
Definition admissible (inp : CandidateInput) (db : list CandidateRecord)
    (r : CandidateRecord) : Prop :=
  In r db ∧ qualifies inp r = true ∧
  ∀ r', In r' db → qualifies inp r' = true → better inp r' r = false.

Section Justification.

(** "Result: the selected record plus a human-readable justification
    string."  The wording of the justification is left open; it is
    written from the profile and the selected record. *)
Variable justify : CandidateInput → CandidateRecord → string.

(** Modelled from the spec: the result of the missing matching function,
    the selected record with its justification. *)
Definition matching_rule (inp : CandidateInput)
    (db : list CandidateRecord) : option (CandidateRecord * string) :=
  (λ r, (r, justify inp r)) <$> select inp db.

(** Modelled from the spec: what the policy of the missing matching
    function admits as a result. *)
Definition outcome (inp : CandidateInput) (db : list CandidateRecord)
    (res : CandidateRecord * string) : Prop :=
  admissible inp db res.1 ∧ res.2 = justify inp res.1.

End Justification.

(** A sample justification. *)
Definition plain_reason (inp : CandidateInput) (r : CandidateRecord)
  : string :=
  "role " ++ cr_role r ++ ", within budget, enough experience".

End MatchingRule.

(** ** Vocabulary of the statements *)

(** The task list [main] hands to the crew, once the task cell has run. *)
Definition declared_tasks (ci : CandidateInput) : list Task :=
  [mk_task_profile ci agent_1; mk_task_match agent_2 Ref_candidate_db;
   mk_task_offer agent_3; mk_task_send agent_4].

Definition declaration_order : list TaskId :=
  [task_profile; task_match; task_offer; task_send].

(** The requests of a run, given the store and the answers so far. *)
Definition rq_profile (ci : CandidateInput) : Request :=
  {| rq_task := task_profile; rq_agent := agent_1;
     rq_description := ProfileText ci;
     rq_expected_output := "JSON object candidate_profile";
     rq_context := []; rq_input_data := None |}.

Definition rq_match (db : list CandidateRecord) (o1 : string) : Request :=
  {| rq_task := task_match; rq_agent := agent_2;
     rq_description := MatchText;
     rq_expected_output := "JSON matched_candidate";
     rq_context := [(task_profile, o1)]; rq_input_data := Some db |}.

Definition rq_offer (o1 o2 : string) : Request :=
  {| rq_task := task_offer; rq_agent := agent_3;
     rq_description := OfferText;
     rq_expected_output := "String offer_email";
     rq_context := [(task_profile, o1); (task_match, o2)];
     rq_input_data := None |}.

Definition rq_send (o2 o3 : string) : Request :=
  {| rq_task := task_send; rq_agent := agent_4;
     rq_description := SendText;
     rq_expected_output := "String send_status";
     rq_context := [(task_offer, o3); (task_match, o2)];
     rq_input_data := None |}.

Definition script (db : list CandidateRecord) (ci : CandidateInput)
    (o1 o2 o3 : string) : list Request :=
  [rq_profile ci; rq_match db o1; rq_offer o1 o2; rq_send o2 o3].

(** The step results of a completed run with answers [o1..o4]. *)
Definition step_results (o1 o2 o3 o4 : string) : list StepResult :=
  [ {| sr_task := task_profile; sr_context := []; sr_raw := o1 |};
    {| sr_task := task_match; sr_context := [(task_profile, o1)];
       sr_raw := o2 |};
    {| sr_task := task_offer;
       sr_context := [(task_profile, o1); (task_match, o2)]; sr_raw := o3 |};
    {| sr_task := task_send;
       sr_context := [(task_offer, o3); (task_match, o2)]; sr_raw := o4 |} ].

(** [occurs c s]: the character [c] is somewhere in [s]. *)
Fixpoint occurs (c : ascii) (s : string) : Prop :=
  match s with
  | EmptyString => False
  | String a r => a = c ∨ occurs c r
  end.

(** The requests issued between two kernel states. *)
Definition new_calls (w w' : World) : list Request :=
  drop (length (w_calls w)) (w_calls w').

(** The profile the input cell builds from the operator's lines. *)
Definition parsed (op : Operator) (ci : CandidateInput) : Prop :=
  PyStr.python_int (exp_inp op) = Some (ci_experience_years ci) ∧
  PyStr.python_int (budget_inp op) = Some (ci_budget ci) ∧
  ci_role ci = PyStr.strip (role_inp op) ∧
  ci_stack ci = PyStr.strip <$> PyStr.split_comma (stack_inp_raw op).

(** What the cells before [main] write to standard output. *)
Definition prompt_lines : list string :=
  [greeting ++ nl; prompt_role; prompt_exp; prompt_budget; prompt_stack].

(** A computation keeps a relation between the kernel states before and
    after it, whatever it returns. *)
Definition keeps (R : relation World) {A} (m : Py A) : Prop :=
  ∀ w, R w (m w).2.

Definition same_db : relation World := λ w w', w_db w' = w_db w.
Definition same_calls : relation World := λ w w', w_calls w' = w_calls w.
Definition same_outputs : relation World :=
  λ w w', w_outputs w' = w_outputs w.
Definition same_stdout : relation World := λ w w', w_stdout w' = w_stdout w.
Definition same_display : relation World :=
  λ w w', w_display w' = w_display w.
Definition same_binding (name : string) : relation World :=
  λ w w', w_globals w' !! name = w_globals w !! name.

(** The names the task cell reads from the agents cell. *)
Definition agents_bound (w : World) : Prop :=
  w_globals w !! "agent_1" = Some (VAgent agent_1) ∧
  w_globals w !! "agent_2" = Some (VAgent agent_2) ∧
  w_globals w !! "agent_3" = Some (VAgent agent_3) ∧
  w_globals w !! "agent_4" = Some (VAgent agent_4) ∧
  w_globals w !! "llm" = Some VOpaque ∧
  w_globals w !! "candidate_db" = Some VStore.

Definition tasks_bound (ci : CandidateInput) (w : World) : Prop :=
  w_globals w !! "task_profile" = Some (VTask (mk_task_profile ci agent_1)) ∧
  w_globals w !! "task_match"
    = Some (VTask (mk_task_match agent_2 Ref_candidate_db)) ∧
  w_globals w !! "task_offer" = Some (VTask (mk_task_offer agent_3)) ∧
  w_globals w !! "task_send" = Some (VTask (mk_task_send agent_4)).

(** The names [main] reads. *)
Definition ready (ci : CandidateInput) (w : World) : Prop :=
  w_globals w !! "Crew" = Some VOpaque ∧ agents_bound w ∧ tasks_bound ci w.

(** How a crew run over the declared tasks can end: all four steps
    answered, or the [k]-th execution raised. *)
Inductive KickoffOutcome (endpoint : nat → Request → string + string)
    (ci : CandidateInput) (w : World)
  : PyExc + list StepResult → World → Prop :=
| Kick_completed o1 o2 o3 o4 w' :
    endpoint (length (w_calls w)) (rq_profile ci) = inr o1 →
    endpoint (length (w_calls w) + 1)%nat (rq_match (w_db w) o1) = inr o2 →
    endpoint (length (w_calls w) + 2)%nat (rq_offer o1 o2) = inr o3 →
    endpoint (length (w_calls w) + 3)%nat (rq_send o2 o3) = inr o4 →
    w_calls w' = (w_calls w ++ script (w_db w) ci o1 o2 o3)%list →
    w_outputs w' = <[task_send := o4]> (<[task_offer := o3]>
                     (<[task_match := o2]> (<[task_profile := o1]>
                        (w_outputs w)))) →
    KickoffOutcome endpoint ci w (inr (step_results o1 o2 o3 o4)) w'
| Kick_failed k o1 o2 o3 rq msg w' :
    script (w_db w) ci o1 o2 o3 !! k = Some rq →
    endpoint (length (w_calls w) + k)%nat rq = inl msg →
    w_calls w' = (w_calls w ++ take (S k) (script (w_db w) ci o1 o2 o3))%list →
    KickoffOutcome endpoint ci w (inl (EndpointError msg)) w'.

(** How the pipeline run can end. *)
Inductive RunOutcome (endpoint : nat → Request → string + string)
    (op : Operator) (w : World) : PyExc + () → World → Prop :=
| Run_bad_experience w' :
    PyStr.python_int (exp_inp op) = None →
    w_calls w' = w_calls w →
    w_outputs w' = w_outputs w →
    w_stdout w' = (w_stdout w ++ ("---" ++ nl)%string :: prompt_lines)%list →
    w_globals w' !! "result" = w_globals w !! "result" →
    RunOutcome endpoint op w (inl (ValueError (exp_inp op))) w'
| Run_bad_budget e w' :
    PyStr.python_int (exp_inp op) = Some e →
    PyStr.python_int (budget_inp op) = None →
    w_calls w' = w_calls w →
    w_outputs w' = w_outputs w →
    w_stdout w' = (w_stdout w ++ ("---" ++ nl)%string :: prompt_lines)%list →
    w_globals w' !! "result" = w_globals w !! "result" →
    RunOutcome endpoint op w (inl (ValueError (budget_inp op))) w'
| Run_step_failed ci k o1 o2 o3 rq msg w' :
    parsed op ci →
    script candidate_db ci o1 o2 o3 !! k = Some rq →
    endpoint (length (w_calls w) + k)%nat rq = inl msg →
    w_calls w' = (w_calls w ++ take (S k) (script candidate_db ci o1 o2 o3))%list →
    w_stdout w' = (w_stdout w ++ ("---" ++ nl)%string :: prompt_lines
                              ++ [(input_received op ++ nl)%string])%list →
    w_globals w' !! "result" = w_globals w !! "result" →
    RunOutcome endpoint op w (inl (EndpointError msg)) w'
| Run_completed ci o1 o2 o3 o4 w' :
    parsed op ci →
    endpoint (length (w_calls w)) (rq_profile ci) = inr o1 →
    endpoint (length (w_calls w) + 1)%nat (rq_match candidate_db o1) = inr o2 →
    endpoint (length (w_calls w) + 2)%nat (rq_offer o1 o2) = inr o3 →
    endpoint (length (w_calls w) + 3)%nat (rq_send o2 o3) = inr o4 →
    w_calls w' = (w_calls w ++ script candidate_db ci o1 o2 o3)%list →
    w_outputs w' !! task_send = Some o4 →
    w_stdout w' = (w_stdout w ++ ("---" ++ nl)%string :: prompt_lines
                    ++ [(input_received op ++ nl)%string;
                        ((nl ++ "👤 Подходящий кандидат:" ++ nl) ++ " " ++ o2 ++ nl)%string;
                        ((nl ++ "📤 Статус отправки:" ++ nl) ++ " " ++ o4 ++ nl)%string])%list →
    w_globals w' !! "result" = Some (VDict o2 o4) →
    RunOutcome endpoint op w (inr ()) w'.

(** ** Vocabulary of the further properties *)

(** A string of white space only (possibly empty). *)
Fixpoint all_space (s : string) : bool :=
  match s with
  | EmptyString => true
  | String c r => PyStr.is_space c && all_space r
  end.

(** Neither end of the string has white space for [strip] to remove. *)
Definition trimmed (s : string) : Prop :=
  PyStr.lstrip s = s ∧ PyStr.rstrip s = s.

Definition starts_with_digit (s : string) : bool :=
  match s with
  | EmptyString => false
  | String c _ => PyStr.is_digit c
  end.

(** The [agent=] keyword of each task declaration. *)
Definition declared_agent (t : TaskId) : AgentId :=
  match t with
  | task_profile => agent_1
  | task_match => agent_2
  | task_offer => agent_3
  | task_send => agent_4
  end.

(** [d] is declared before [t] in the task list of [main]. *)
Definition earlier (d t : TaskId) : Prop :=
  (TaskId_to_nat d < TaskId_to_nat t)%nat.

(** The recorded outputs after four answers. *)
Definition with_outputs (o1 o2 o3 o4 : string) (outs : gmap TaskId string)
  : gmap TaskId string :=
  <[task_send := o4]> (<[task_offer := o3]>
    (<[task_match := o2]> (<[task_profile := o1]> outs))).

(** [t] is [s] with blanks added before and after. *)
Definition padded (s t : string) : Prop :=
  ∃ ws ws', all_space ws = true ∧ all_space ws' = true ∧ t = ws ++ s ++ ws'.

(** The same for the blanks [int] skips. *)
Fixpoint all_int_space (s : string) : bool :=
  match s with
  | EmptyString => true
  | String c r => PyStr.is_int_space c && all_int_space r
  end.

Definition int_padded (s t : string) : Prop :=
  ∃ ws ws',
    all_int_space ws = true ∧ all_int_space ws' = true ∧ t = ws ++ s ++ ws'.

(** A character of the ASCII range. *)
Definition is_ascii (c : ascii) : bool := (nat_of_ascii c <? 128)%nat.

(** The characters an integer literal of [int] may contain. *)
Definition int_char (c : ascii) : bool :=
  PyStr.is_digit c || PyStr.is_int_space c ||
  Ascii.eqb c "+" || Ascii.eqb c "-" || Ascii.eqb c "_".

(** [answered endpoint n rqs outs]: the endpoint answers the requests
    [rqs], started as executions [n], [n+1], ..., with the texts [outs]. *)
Fixpoint answered (endpoint : nat → Request → string + string) (n : nat)
    (rqs : list Request) (outs : list string) : Prop :=
  match rqs, outs with
  | [], [] => True
  | rq :: rqs, o :: outs =>
      endpoint n rq = inr o ∧ answered endpoint (S n) rqs outs
  | _, _ => False
  end.

(** [append_last l b]: [b] appended to the last string of [l]. *)
Fixpoint append_last (l : list string) (b : string) : list string :=
  match l with
  | [] => []
  | [h] => [h ++ b]
  | h :: t => h :: append_last t b
  end.

(** The labels [main] prints before the two results. *)
Definition candidate_label : string := nl ++ "👤 Подходящий кандидат:" ++ nl.
Definition status_label : string := nl ++ "📤 Статус отправки:" ++ nl.

(** The outcome and the requests of a crew run over the declared tasks,
    read off the endpoint's answers from execution number [n] on. *)
Definition crew_trace (endpoint : nat → Request → string + string) (n : nat)
    (db : list CandidateRecord) (ci : CandidateInput)
  : (PyExc + list StepResult) * list Request :=
  match endpoint n (rq_profile ci) with
  | inl m => (inl (EndpointError m), [rq_profile ci])
  | inr o1 =>
      match endpoint (n + 1)%nat (rq_match db o1) with
      | inl m => (inl (EndpointError m), [rq_profile ci; rq_match db o1])
      | inr o2 =>
          match endpoint (n + 2)%nat (rq_offer o1 o2) with
          | inl m =>
              (inl (EndpointError m),
               [rq_profile ci; rq_match db o1; rq_offer o1 o2])
          | inr o3 =>
              match endpoint (n + 3)%nat (rq_send o2 o3) with
              | inl m => (inl (EndpointError m), script db ci o1 o2 o3)
              | inr o4 =>
                  (inr (step_results o1 o2 o3 o4), script db ci o1 o2 o3)
              end
          end
      end
  end.

(** The same for the whole run: first the two conversions of the input
    cell, then the crew. *)
Definition run_trace (endpoint : nat → Request → string + string)
    (op : Operator) (n : nat) : (PyExc + ()) * list Request :=
  match PyStr.python_int (exp_inp op) with
  | None => (inl (ValueError (exp_inp op)), [])
  | Some e =>
      match PyStr.python_int (budget_inp op) with
      | None => (inl (ValueError (budget_inp op)), [])
      | Some b =>
          let ci := {| ci_role := PyStr.strip (role_inp op);
                       ci_experience_years := e; ci_budget := b;
                       ci_stack := PyStr.strip <$>
                                     PyStr.split_comma (stack_inp_raw op) |} in
          match crew_trace endpoint n candidate_db ci with
          | (inl x, calls) => (inl x, calls)
          | (inr _, calls) => (inr (), calls)
          end
      end
  end.

(** * Properties *)

(** ** Splitting the skill stack *)

Lemma split_comma_length s :
  length (PyStr.split_comma s) = S (PyStr.count_commas s).
Proof.
  induction s as [|c r IH]; simpl; [reflexivity|].
  destruct (Ascii.eqb c ","); simpl.
  - now rewrite IH.
  - destruct (PyStr.split_comma r) as [|h t]; simpl in *; [discriminate|].
    exact IH.
Qed.

Lemma make_candidate_input_stack role exp budget stack w ci w' :
  make_candidate_input role exp budget stack w = (inr ci, w') →
  ci_stack ci = PyStr.strip <$> PyStr.split_comma stack.
Proof.
  unfold make_candidate_input, py_int, mbind, py_bind, mret, py_ret, raise.
  destruct (PyStr.python_int exp); [|discriminate].
  destruct (PyStr.python_int budget); [|discriminate].
  intros [= <- _]. reflexivity.
Qed.

(** C10: the stack of [candidate_input] has one entry more than the
    operator's line has commas, so it is never the empty list; an empty
    line gives the one-element list holding the empty string. *)
Theorem stack_length_commas_plus_one role exp budget stack w ci w' :
  make_candidate_input role exp budget stack w = (inr ci, w') →
  length (ci_stack ci) = S (PyStr.count_commas stack) ∧
  ci_stack ci ≠ [] ∧
  (stack = "" → ci_stack ci = [""]).
Proof.
  intros H. apply make_candidate_input_stack in H. rewrite H.
  assert (L : length (PyStr.strip <$> PyStr.split_comma stack)
              = S (PyStr.count_commas stack))
    by (rewrite length_fmap; apply split_comma_length).
  split; [exact L|]. split.
  - intros E. rewrite E in L. discriminate L.
  - intros ->. reflexivity.
Qed.

Lemma stack_length_commas_plus_one_witness :
  let ci := {| ci_role := "Backend Developer"; ci_experience_years := 4;
               ci_budget := 4000; ci_stack := [""] |} in
  length (ci_stack ci) = S (PyStr.count_commas "") ∧
  ci_stack ci ≠ [] ∧
  ("" = "" → ci_stack ci = [""]).
Proof.
  exact (stack_length_commas_plus_one
           "Backend Developer" "4" "4000" "" fresh_kernel _ fresh_kernel
           eq_refl).
Defined.

(** ** What [int] rejects *)

Lemma occurs_int_lstrip c s :
  PyStr.is_int_space c = false → occurs c s → occurs c (PyStr.int_lstrip s).
Proof.
  intros Hc. induction s as [|a r IH]; simpl; [tauto|].
  intros [->|H].
  - rewrite Hc. simpl. auto.
  - destruct (PyStr.is_int_space a); simpl; auto.
Qed.

Lemma occurs_int_rstrip c s :
  PyStr.is_int_space c = false → occurs c s → occurs c (PyStr.int_rstrip s).
Proof.
  intros Hc. induction s as [|a r IH]; simpl; [tauto|].
  intros [->|H].
  - rewrite Hc. simpl. auto.
  - specialize (IH H).
    destruct (PyStr.int_rstrip r) as [|x y]; [destruct IH|].
    rewrite andb_false_r. simpl. auto.
Qed.

Lemma int_digits_rejects c s acc b :
  PyStr.is_digit c = false → c ≠ "_"%char → occurs c s →
  PyStr.int_digits acc b s = None.
Proof.
  intros Hd Hu. revert acc b.
  induction s as [|a r IH]; intros acc b; simpl; [tauto|].
  intros [->|H].
  - rewrite Hd. apply Ascii.eqb_neq in Hu. rewrite Hu. reflexivity.
  - destruct (PyStr.is_digit a); [auto|].
    destruct (Ascii.eqb a "_" && b); auto.
Qed.

Lemma python_int_cases s :
  PyStr.python_int s
  = if PyStr.max_str_digits <? PyStr.digit_count (PyStr.int_strip s) then None
    else match PyStr.int_strip s with
         | EmptyString => None
         | String a r =>
             if Ascii.eqb a "+" then PyStr.int_digits 0 false r
             else if Ascii.eqb a "-" then Z.opp <$> PyStr.int_digits 0 false r
             else PyStr.int_digits 0 false (String a r)
         end.
Proof.
  unfold PyStr.python_int. cbv zeta.
  destruct (PyStr.max_str_digits <? PyStr.digit_count (PyStr.int_strip s));
    [reflexivity|].
  destruct (PyStr.int_strip s) as [|a r]; [reflexivity|].
  destruct a as [[] [] [] [] [] [] [] []]; reflexivity.
Qed.

(** A line holding a character that is neither a digit, a sign, an
    underscore nor a blank [int] skips is not an integer literal. *)
Lemma python_int_rejects c s :
  occurs c s →
  PyStr.is_digit c = false → PyStr.is_int_space c = false →
  c ≠ "+"%char → c ≠ "-"%char → c ≠ "_"%char →
  PyStr.python_int s = None.
Proof.
  intros H Hd Hs Hp Hm Hu. rewrite python_int_cases.
  assert (O : occurs c (PyStr.int_strip s))
    by (apply occurs_int_rstrip, occurs_int_lstrip; assumption).
  destruct (PyStr.max_str_digits <? PyStr.digit_count (PyStr.int_strip s));
    [reflexivity|].
  destruct (PyStr.int_strip s) as [|a r]; [reflexivity|].
  destruct (Ascii.eqb_spec a "+") as [->|Ha].
  { destruct O as [O|O]; [congruence|].
    eapply int_digits_rejects; eassumption. }
  destruct (Ascii.eqb_spec a "-") as [->|Hb].
  { destruct O as [O|O]; [congruence|].
    erewrite int_digits_rejects; eauto. }
  eapply int_digits_rejects; eassumption.
Qed.

(** ** The store and the hard constraints *)

Lemma qualifies_spec inp r :
  qualifies inp r = true ↔
  cr_budget r ≤ ci_budget inp ∧ ci_experience_years inp ≤ cr_experience_years r.
Proof.
  unfold qualifies, budget_ok, experience_ok.
  rewrite andb_true_iff, !Z.leb_le. reflexivity.
Qed.

Lemma In_candidate_db r :
  In r candidate_db ↔
  r = c_101 ∨ r = c_202 ∨ r = c_303 ∨ r = c_404 ∨ r = c_505 ∨ r = c_606.
Proof. unfold candidate_db; simpl. intuition congruence. Qed.

(** C4: for the profile DevOps Engineer / 6 years / budget 4000 / empty
    stack no record of the store meets both hard constraints; c-303, the
    only record with six years, asks 4500, more than 4000. *)
Theorem devops_4000_no_record_qualifies :
  qualifying inp_devops candidate_db = [] ∧
  (∀ r, In r candidate_db → qualifies inp_devops r = false) ∧
  (cr_budget c_303 = 4500 ∧ ci_budget inp_devops < cr_budget c_303 ∧
   budget_ok inp_devops c_303 = false ∧ experience_ok inp_devops c_303 = true).
Proof.
  split; [reflexivity|]. split.
  - intros r Hr. apply In_candidate_db in Hr.
    destruct Hr as [->|[->|[->|[->|[->| ->]]]]]; reflexivity.
  - repeat split; reflexivity.
Qed.

(** ** The matching policy *)

Module MatchingRuleFacts.
Import MatchingRule.

Lemma better_prefers inp a b : better inp a b = true ↔ prefers inp a b.
Proof.
  unfold better, prefers.
  destruct (primary inp a), (primary inp b); simpl;
    try (split; [intros _; lia | reflexivity]);
    try (split; [discriminate | lia]);
    (destruct (Nat.eqb_spec (overlap inp a) (overlap inp b)) as [E|E]; simpl;
     [rewrite Z.ltb_lt | rewrite Nat.ltb_lt]; lia).
Qed.

Lemma better_false inp a b : better inp a b = false ↔ ¬ prefers inp a b.
Proof.
  rewrite <- better_prefers. destruct (better inp a b); split; congruence.
Qed.

Lemma prefers_irrefl inp a : ¬ prefers inp a a.
Proof. unfold prefers. lia. Qed.

(** Two records neither of which is preferred ask the same budget. *)
Lemma indifferent_same_budget inp a b :
  ¬ prefers inp a b → ¬ prefers inp b a → cr_budget a = cr_budget b.
Proof. unfold prefers. lia. Qed.

Lemma foldl_pick_some inp l b :
  ∃ r, foldl (pick inp) (Some b) l = Some r ∧ (r = b ∨ In r l) ∧
       ¬ prefers inp b r ∧ ∀ x, In x l → ¬ prefers inp x r.
Proof.
  revert b. induction l as [|x l IH]; intros b; simpl.
  - exists b. repeat split; auto using prefers_irrefl.
  - destruct (better inp x b) eqn:E.
    + apply better_prefers in E.
      destruct (IH x) as (r & Hr & Hin & Hx & Hall).
      exists r. repeat split; auto.
      * destruct Hin; auto.
      * intros P. apply Hx. revert E P. unfold prefers. lia.
      * intros y [<-|Hy]; auto.
    + apply better_false in E.
      destruct (IH b) as (r & Hr & Hin & Hb & Hall).
      exists r. repeat split; auto.
      * destruct Hin; auto.
      * intros y [<-|Hy]; auto.
        intros P. revert E Hb P. unfold prefers. lia.
Qed.

Lemma select_none inp db :
  select inp db = None ↔ qualifying inp db = [].
Proof.
  unfold select. destruct (qualifying inp db) as [|x l]; simpl.
  - split; reflexivity.
  - destruct (foldl_pick_some inp l x) as (r & -> & _). split; discriminate.
Qed.

(** The function implements the policy. *)
Lemma select_admissible inp db r :
  select inp db = Some r → admissible inp db r.
Proof.
  unfold select, admissible, qualifying.
  destruct (List.filter (qualifies inp) db) as [|x l] eqn:F; simpl;
    [discriminate|].
  destruct (foldl_pick_some inp l x) as (r' & -> & Hin & Hx & Hall).
  intros [= ->].
  assert (Hr : In r (List.filter (qualifies inp) db))
    by (rewrite F; simpl; destruct Hin as [->|Hin]; auto).
  apply filter_In in Hr. destruct Hr as [Hdb Hq].
  repeat split; auto.
  intros r' Hr' Hq'. apply better_false.
  assert (H' : In r' (x :: l)) by (rewrite <- F; apply filter_In; auto).
  destruct H' as [<-|H']; auto.
Qed.

Lemma select_exists inp db :
  (∃ r, In r db ∧ qualifies inp r = true) →
  ∃ r, select inp db = Some r.
Proof.
  intros (r0 & Hin & Hq).
  destruct (select inp db) as [r|] eqn:E; [eauto|].
  apply select_none in E.
  assert (H : In r0 (qualifying inp db)) by (apply filter_In; auto).
  rewrite E in H. destruct H.
Qed.

(** Where budgets are pairwise distinct the policy admits one record. *)
Lemma admissible_unique inp db r1 r2 :
  (∀ a b, In a db → In b db → cr_budget a = cr_budget b → a = b) →
  admissible inp db r1 → admissible inp db r2 → r1 = r2.
Proof.
  intros Hinj (I1 & Q1 & M1) (I2 & Q2 & M2).
  apply Hinj; auto.
  apply (indifferent_same_budget inp); apply better_false; auto.
Qed.

Lemma candidate_db_budgets_distinct a b :
  In a candidate_db → In b candidate_db →
  cr_budget a = cr_budget b → a = b.
Proof.
  rewrite !In_candidate_db.
  intros [->|[->|[->|[->|[->| ->]]]]] [->|[->|[->|[->|[->| ->]]]]];
    simpl; intros E; (reflexivity || discriminate E).
Qed.

End MatchingRuleFacts.

(** C1: whenever some record of the store meets both hard constraints,
    the matching rule returns a record, that record is in the store with
    budget at most the profile's budget and experience at least the
    profile's, and it is the only record the policy admits. *)
Theorem matching_rule_returns_one_qualifying_record inp :
  (∃ r, In r candidate_db ∧ cr_budget r ≤ ci_budget inp ∧
        ci_experience_years inp ≤ cr_experience_years r) →
  ∃ r, MatchingRule.select inp candidate_db = Some r ∧
       In r candidate_db ∧
       cr_budget r ≤ ci_budget inp ∧
       ci_experience_years inp ≤ cr_experience_years r ∧
       ∀ r', MatchingRule.admissible inp candidate_db r' → r' = r.
Proof.
  intros (r0 & Hin & Hq).
  destruct (MatchingRuleFacts.select_exists inp candidate_db) as [r Hr].
  { exists r0. split; [exact Hin|]. apply qualifies_spec. exact Hq. }
  pose proof (MatchingRuleFacts.select_admissible _ _ _ Hr) as A.
  exists r. split; [exact Hr|].
  destruct A as (I & Q & M). apply qualifies_spec in Q as Q'.
  repeat split; try tauto.
  intros r' A'.
  apply (MatchingRuleFacts.admissible_unique inp candidate_db);
    auto using MatchingRuleFacts.candidate_db_budgets_distinct.
  repeat split; auto.
Qed.

Lemma matching_rule_returns_one_qualifying_record_witness :
  ∃ r, MatchingRule.select inp_backend candidate_db = Some r ∧
       In r candidate_db ∧
       cr_budget r ≤ ci_budget inp_backend ∧
       ci_experience_years inp_backend ≤ cr_experience_years r ∧
       ∀ r', MatchingRule.admissible inp_backend candidate_db r' → r' = r.
Proof.
  apply (matching_rule_returns_one_qualifying_record inp_backend).
  exists c_606. split; [simpl; tauto|]. split; simpl; lia.
Defined.

(** The input cell turns the four lines of [op_backend] into [inp_backend]. *)
Lemma op_backend_input w :
  make_candidate_input (role_inp op_backend) (exp_inp op_backend)
    (budget_inp op_backend) (stack_inp_raw op_backend) w
  = (inr inp_backend, w).
Proof. reflexivity. Qed.

(** C2: for the profile Backend Developer / 4 years / budget 4000 /
    stack [Node.js] the matching rule selects c-202 (Maria Petrova): the
    role is the same, 3500 ≤ 4000 and 4 ≥ 4; no other record is
    admissible. *)
Theorem backend_4000_selects_c_202 :
  MatchingRule.select inp_backend candidate_db = Some c_202 ∧
  (∀ r, MatchingRule.admissible inp_backend candidate_db r ↔ r = c_202) ∧
  cr_id c_202 = "c-202" ∧ cr_full_name c_202 = "Maria Petrova" ∧
  cr_role c_202 = ci_role inp_backend ∧
  cr_budget c_202 = 3500 ∧ cr_budget c_202 ≤ ci_budget inp_backend ∧
  cr_experience_years c_202 = 4 ∧
  ci_experience_years inp_backend ≤ cr_experience_years c_202.
Proof.
  assert (S : MatchingRule.select inp_backend candidate_db = Some c_202)
    by reflexivity.
  pose proof (MatchingRuleFacts.select_admissible _ _ _ S) as A.
  split; [exact S|]. split.
  - intros r. split.
    + intros Ar.
      apply (MatchingRuleFacts.admissible_unique inp_backend candidate_db);
        auto using MatchingRuleFacts.candidate_db_budgets_distinct.
    + intros ->. exact A.
  - repeat split; simpl; lia.
Qed.

(** C9: the matching rule is deterministic on the store: any two outcomes
    it admits for the same profile are the same record with the same
    justification. *)
Theorem matching_rule_deterministic justify inp res1 res2 :
  MatchingRule.outcome justify inp candidate_db res1 →
  MatchingRule.outcome justify inp candidate_db res2 →
  res1 = res2.
Proof.
  destruct res1 as [r1 j1], res2 as [r2 j2].
  unfold MatchingRule.outcome; simpl. intros [A1 ->] [A2 ->].
  assert (r1 = r2) as ->
    by (apply (MatchingRuleFacts.admissible_unique inp candidate_db);
        auto using MatchingRuleFacts.candidate_db_budgets_distinct).
  reflexivity.
Qed.

Lemma matching_rule_deterministic_witness :
  (c_202, MatchingRule.plain_reason inp_backend c_202)
  = (c_202, MatchingRule.plain_reason inp_backend c_202).
Proof.
  assert (A : MatchingRule.admissible inp_backend candidate_db c_202).
  { split; [simpl; tauto|]. split; [reflexivity|].
    intros r' Hr' _. simpl in Hr'.
    destruct Hr' as [<-|[<-|[<-|[<-|[<-|[<-|[]]]]]]]; reflexivity. }
  apply (matching_rule_deterministic MatchingRule.plain_reason inp_backend
           (c_202, MatchingRule.plain_reason inp_backend c_202)
           (c_202, MatchingRule.plain_reason inp_backend c_202));
    (split; [exact A | reflexivity]).
Defined.

(** The executable rule produces an outcome of the policy. *)
Lemma matching_rule_outcome justify inp db res :
  MatchingRule.matching_rule justify inp db = Some res →
  MatchingRule.outcome justify inp db res.
Proof.
  unfold MatchingRule.matching_rule, MatchingRule.outcome.
  destruct (MatchingRule.select inp db) as [r|] eqn:E; simpl; [|discriminate].
  intros [= <-]. simpl. split; [|reflexivity].
  apply MatchingRuleFacts.select_admissible. exact E.
Qed.

(** ** Frame rules for kernel computations *)

Section Frames.

Context (R : relation World) `{!PreOrder R}.

Lemma keeps_ret {A} (a : A) : keeps R (mret a).
Proof. intros w. reflexivity. Qed.

Lemma keeps_raise {A} e : keeps R (@raise A e).
Proof. intros w. reflexivity. Qed.

Lemma keeps_bind {A B} (m : Py A) (k : A → Py B) :
  keeps R m → (∀ a, keeps R (k a)) → keeps R (m ≫= k).
Proof.
  intros Hm Hk w. unfold mbind, py_bind.
  specialize (Hm w). destruct (m w) as [[e|a] w1]; simpl in *; [exact Hm|].
  transitivity w1; [exact Hm | apply Hk].
Qed.

Lemma keeps_read_global name : keeps R (read_global name).
Proof.
  intros w. unfold read_global. destruct (w_globals w !! name); reflexivity.
Qed.

Lemma keeps_output_raw t : keeps R (output_raw t).
Proof.
  intros w. unfold output_raw. destruct (w_outputs w !! t); reflexivity.
Qed.

Lemma keeps_get_context t done : keeps R (get_context t done).
Proof. intros w. reflexivity. Qed.

Lemma keeps_deref r : keeps R (deref r).
Proof. intros w. reflexivity. Qed.

Lemma keeps_bind_globals names v :
  (∀ n, In n names → keeps R (bind_global n v)) →
  keeps R (bind_globals names v).
Proof.
  induction names as [|n names IH]; intros H; cbn [bind_globals].
  - apply keeps_ret.
  - apply keeps_bind; [apply H; simpl; auto|].
    intros _. apply IH. intros n' Hn'. apply H. simpl; auto.
Qed.

End Frames.

#[local] Instance same_db_preorder : PreOrder same_db.
Proof. split; unfold same_db; [intros w | intros a b c]; congruence. Qed.
#[local] Instance same_calls_preorder : PreOrder same_calls.
Proof. split; unfold same_calls; [intros w | intros a b c]; congruence. Qed.
#[local] Instance same_outputs_preorder : PreOrder same_outputs.
Proof. split; unfold same_outputs; [intros w | intros a b c]; congruence. Qed.
#[local] Instance same_stdout_preorder : PreOrder same_stdout.
Proof. split; unfold same_stdout; [intros w | intros a b c]; congruence. Qed.
#[local] Instance same_display_preorder : PreOrder same_display.
Proof. split; unfold same_display; [intros w | intros a b c]; congruence. Qed.
#[local] Instance same_binding_preorder name : PreOrder (same_binding name).
Proof. split; unfold same_binding; [intros w | intros a b c]; congruence. Qed.

(** A primitive keeps a relation that talks about fields it does not
    write; binding a name keeps the binding of every other name. *)
Ltac keeps_prim :=
  lazymatch goal with
  | |- keeps (same_binding _) (bind_global _ _) =>
      intros ?; unfold same_binding; simpl;
      rewrite lookup_insert_ne by discriminate; reflexivity
  | |- keeps _ (call_endpoint ?ep ?rq) =>
      let w := fresh "w" in
      intros w; unfold call_endpoint;
      destruct (ep (length (w_calls w)) rq); reflexivity
  | |- keeps _ _ => intros ?; reflexivity
  end.

Ltac keeps_by l := solve [apply l; tc_solve].

Ltac keeps_step :=
  lazymatch goal with
  | |- keeps _ (mret _) => keeps_by keeps_ret
  | |- keeps _ (raise _) => keeps_by keeps_raise
  | |- keeps _ (read_global _) => keeps_by keeps_read_global
  | |- keeps _ (output_raw _) => keeps_by keeps_output_raw
  | |- keeps _ (get_context _ _) => keeps_by keeps_get_context
  | |- keeps _ (deref _) => keeps_by keeps_deref
  | |- keeps _ (mbind _ _) => apply keeps_bind; try tc_solve; [|intros ?]
  | |- keeps _ (bind_globals _ _) =>
      apply keeps_bind_globals; try tc_solve;
      let H := fresh in
      intros ? H; simpl in H;
      repeat (destruct H as [<-|H]; [keeps_prim|]); destruct H
  | |- keeps _ (match ?v with _ => _ end) => destruct v
  | |- keeps _ (bind_global _ _) => keeps_prim
  | |- keeps _ (write _) => keeps_prim
  | |- keeps _ (display_markdown _) => keeps_prim
  | |- keeps _ (create_store _) => keeps_prim
  | |- keeps _ (set_output _ _) => keeps_prim
  | |- keeps _ (call_endpoint _ _) => keeps_prim
  end.

Ltac keeps_auto := repeat keeps_step.

Lemma keeps_execute_tasks R `{!PreOrder R} endpoint ts :
  (∀ t done, keeps R (execute_task endpoint t done)) →
  ∀ done, keeps R (execute_tasks endpoint ts done).
Proof.
  intros H. induction ts as [|t ts IH]; intros done; cbn [execute_tasks].
  - keeps_step.
  - keeps_step; [apply H | apply IH].
Qed.

(** Every step of a crew run leaves the store, the screen and the global
    names as they are. *)
Lemma execute_task_same_db endpoint t done :
  keeps same_db (execute_task endpoint t done).
Proof. unfold execute_task. keeps_auto. Qed.

Lemma execute_task_same_stdout endpoint t done :
  keeps same_stdout (execute_task endpoint t done).
Proof. unfold execute_task. keeps_auto. Qed.

Lemma execute_task_same_display endpoint t done :
  keeps same_display (execute_task endpoint t done).
Proof. unfold execute_task. keeps_auto. Qed.

Lemma execute_task_same_binding name endpoint t done :
  keeps (same_binding name) (execute_task endpoint t done).
Proof. unfold execute_task. keeps_auto. Qed.

Lemma kickoff_keeps R `{!PreOrder R} endpoint ts :
  (∀ t done, keeps R (execute_task endpoint t done)) →
  keeps R (kickoff endpoint ts).
Proof. intros H. apply keeps_execute_tasks; [tc_solve | exact H]. Qed.

(** ** Symbolic execution of the cells *)

Ltac py_red :=
  cbv beta iota zeta delta
    [run notebook input_cells cell_setup cell_agents cell_tasks cell_main
     cell_display main task_raw get_context deref call_endpoint set_output
     output_raw read_task read_agent read_store_ref read_global bind_global
     bind_globals create_store write print print2 input display_markdown
     attr_raw py_int make_candidate_input raise mbind mret py_bind py_ret
     declared_tasks mk_task_profile mk_task_match mk_task_offer mk_task_send
     omap list_omap fmap list_fmap option_fmap option_map
     w_globals w_db w_outputs w_stdout w_display w_calls fst snd
     t_id t_description t_expected_output t_agent t_context t_input_data
     t_output_key sr_task sr_raw sr_context
     agents_bound tasks_bound ready same_binding same_db same_calls
     same_outputs same_stdout same_display].

Ltac py_red_in H :=
  cbv beta iota zeta delta
    [w_globals w_db w_outputs w_stdout w_display w_calls fst snd
     agents_bound tasks_bound ready same_binding same_db same_calls
     same_outputs same_stdout same_display] in H.

Ltac py_red_crew :=
  cbv beta iota zeta delta [kickoff execute_tasks execute_task]; py_red.

Ltac py_lookup :=
  repeat first
    [ rewrite lookup_insert_eq
    | rewrite lookup_insert_ne by discriminate
    | match goal with
      | H : ?g !! ?n = _ |- context [?g !! ?n] => rewrite H
      end ].

Lemma cell_setup_run w :
  ∃ w1, cell_setup w = (inr (), w1) ∧
        w_globals w1 !! "Crew" = Some VOpaque ∧
        w_stdout w1 = (w_stdout w ++ [("---" ++ nl)%string])%list.
Proof.
  destruct w. py_red. eexists. split; [reflexivity|]. py_red.
  py_lookup. split; reflexivity.
Qed.

Lemma cell_agents_run w :
  w_globals w !! "Crew" = Some VOpaque →
  ∃ w1, cell_agents w = (inr (), w1) ∧
        w_globals w1 !! "Crew" = Some VOpaque ∧ agents_bound w1 ∧
        w_db w1 = candidate_db ∧ w_stdout w1 = w_stdout w.
Proof.
  intros C. destruct w. py_red_in C. py_red.
  eexists. split; [reflexivity|]. py_red.
  py_lookup. repeat split; reflexivity.
Qed.

Lemma cell_tasks_bad_experience op w :
  PyStr.python_int (exp_inp op) = None →
  ∃ w1, cell_tasks op w = (inl (ValueError (exp_inp op)), w1) ∧
        w_stdout w1 = (w_stdout w ++ prompt_lines)%list.
Proof.
  intros He. destruct w. py_red. rewrite He. py_red.
  eexists. split; [reflexivity|]. py_red.
  rewrite <- !app_assoc. reflexivity.
Qed.

Lemma cell_tasks_bad_budget op w e :
  PyStr.python_int (exp_inp op) = Some e →
  PyStr.python_int (budget_inp op) = None →
  ∃ w1, cell_tasks op w = (inl (ValueError (budget_inp op)), w1) ∧
        w_stdout w1 = (w_stdout w ++ prompt_lines)%list.
Proof.
  intros He Hb. destruct w. py_red. rewrite He, Hb. py_red.
  eexists. split; [reflexivity|]. py_red.
  rewrite <- !app_assoc. reflexivity.
Qed.

Lemma cell_tasks_run op w ci :
  parsed op ci → w_globals w !! "Crew" = Some VOpaque → agents_bound w →
  ∃ w1, cell_tasks op w = (inr (), w1) ∧ ready ci w1 ∧
        w_stdout w1
        = (w_stdout w ++ prompt_lines ++ [(input_received op ++ nl)%string])%list.
Proof.
  destruct ci as [role e b stack].
  intros (He & Hb & Hr & Hs) C A. destruct w.
  py_red_in C. py_red_in A. destruct A as (A1 & A2 & A3 & A4 & A5 & Hdb).
  simpl in He, Hb, Hr, Hs. subst role stack.
  py_red. rewrite He, Hb. py_red. py_lookup. py_red.
  eexists. split; [reflexivity|]. py_red. py_lookup.
  repeat split; try reflexivity.
  rewrite <- !app_assoc. reflexivity.
Qed.

Ltac py_exec := py_red; repeat (progress (py_lookup; py_red)).

Ltac case_endpoint E :=
  lazymatch goal with
  | |- context [match ?ep ?n ?rq with inl _ => _ | inr _ => _ end] =>
      destruct (ep n rq) eqn:E; py_exec
  end.

(** The crew run over the declared tasks, step by step. *)
Lemma kickoff_outcome endpoint ci w :
  KickoffOutcome endpoint ci w
    (kickoff endpoint (declared_tasks ci) w).1
    (kickoff endpoint (declared_tasks ci) w).2.
Proof.
  destruct w as [g db outs so disp calls].
  py_red_crew.
  case_endpoint E1.
  { eapply (Kick_failed _ _ _ 0 "" "" ""); [reflexivity | | reflexivity].
    rewrite Nat.add_0_r. exact E1. }
  rewrite length_app. cbn [length].
  case_endpoint E2.
  { eapply (Kick_failed _ _ _ 1 _ "" ""); [reflexivity | exact E2 |].
    py_red. rewrite <- !app_assoc. reflexivity. }
  rewrite !length_app. cbn [length]. rewrite <- Nat.add_assoc. cbn [Nat.add].
  case_endpoint E3.
  { eapply (Kick_failed _ _ _ 2 _ _ ""); [reflexivity | exact E3 |].
    py_red. rewrite <- !app_assoc. reflexivity. }
  rewrite !length_app. cbn [length]. rewrite <- !Nat.add_assoc. cbn [Nat.add].
  case_endpoint E4.
  { eapply (Kick_failed _ _ _ 3 _ _ _); [reflexivity | exact E4 |].
    py_red. rewrite <- !app_assoc. reflexivity. }
  eapply Kick_completed; py_red; eauto.
  rewrite <- !app_assoc. reflexivity.
Qed.

Lemma bind_ok {A B} (m : Py A) (k : A → Py B) w a w1 :
  m w = (inr a, w1) → (m ≫= k) w = k a w1.
Proof. intros H. unfold mbind, py_bind. rewrite H. reflexivity. Qed.

Lemma bind_err {A B} (m : Py A) (k : A → Py B) w e w1 :
  m w = (inl e, w1) → (m ≫= k) w = (inl e, w1).
Proof. intros H. unfold mbind, py_bind. rewrite H. reflexivity. Qed.

(** ** Frames of the cells *)

Ltac unfold_cells :=
  unfold run, input_cells, cell_setup, cell_agents, cell_tasks, cell_main,
    cell_display, main, task_raw, read_task, read_agent, read_store_ref,
    make_candidate_input, py_int, attr_raw, input, print, print2.

Lemma input_cells_same_calls op : keeps same_calls (input_cells op).
Proof. unfold_cells. keeps_auto. Qed.

Lemma input_cells_same_outputs op : keeps same_outputs (input_cells op).
Proof. unfold_cells. keeps_auto. Qed.

Lemma input_cells_same_display op : keeps same_display (input_cells op).
Proof. unfold_cells. keeps_auto. Qed.

Lemma input_cells_same_result op : keeps (same_binding "result") (input_cells op).
Proof. unfold_cells. keeps_auto. Qed.

Lemma input_cells_same_final_status op :
  keeps (same_binding "final_status") (input_cells op).
Proof. unfold_cells. keeps_auto. Qed.

Lemma cell_tasks_same_db op : keeps same_db (cell_tasks op).
Proof. unfold_cells. keeps_auto. Qed.

Lemma cell_setup_same_db : keeps same_db cell_setup.
Proof. unfold_cells. keeps_auto. Qed.

Lemma cell_display_same_db : keeps same_db cell_display.
Proof. unfold_cells. keeps_auto. Qed.

Lemma cell_main_same_db endpoint : keeps same_db (cell_main endpoint).
Proof.
  unfold_cells.
  repeat first
    [ apply kickoff_keeps; [tc_solve | apply execute_task_same_db]
    | keeps_step ].
Qed.

Lemma cell_main_same_display endpoint : keeps same_display (cell_main endpoint).
Proof.
  unfold_cells.
  repeat first
    [ apply kickoff_keeps; [tc_solve | apply execute_task_same_display]
    | keeps_step ].
Qed.

Lemma cell_main_same_final_status endpoint :
  keeps (same_binding "final_status") (cell_main endpoint).
Proof.
  unfold_cells.
  repeat first
    [ apply kickoff_keeps; [tc_solve | apply execute_task_same_binding]
    | keeps_step ].
Qed.

(** ** The cells before [main] *)

Lemma input_cells_run op w ci :
  parsed op ci →
  ∃ w1, input_cells op w = (inr (), w1) ∧ ready ci w1 ∧
        w_db w1 = candidate_db ∧
        w_stdout w1
        = (w_stdout w ++ ("---" ++ nl)%string :: prompt_lines
             ++ [(input_received op ++ nl)%string])%list.
Proof.
  intros P.
  destruct (cell_setup_run w) as (w1 & E1 & C1 & S1).
  destruct (cell_agents_run w1 C1) as (w2 & E2 & C2 & A2 & D2 & S2).
  destruct (cell_tasks_run op w2 ci P C2 A2) as (w3 & E3 & R3 & S3).
  exists w3. unfold input_cells.
  rewrite (bind_ok _ _ _ _ _ E1), (bind_ok _ _ _ _ _ E2), E3.
  split; [reflexivity|]. split; [exact R3|]. split.
  - pose proof (cell_tasks_same_db op w2) as K. rewrite E3 in K.
    unfold same_db in K. simpl in K. congruence.
  - rewrite S3, S2, S1, <- app_assoc. reflexivity.
Qed.

Lemma input_cells_bad op w lit :
  (PyStr.python_int (exp_inp op) = None ∧ lit = exp_inp op) ∨
  ((∃ e, PyStr.python_int (exp_inp op) = Some e) ∧
   PyStr.python_int (budget_inp op) = None ∧ lit = budget_inp op) →
  ∃ w1, input_cells op w = (inl (ValueError lit), w1) ∧
        w_stdout w1 = (w_stdout w ++ ("---" ++ nl)%string :: prompt_lines)%list.
Proof.
  intros H.
  destruct (cell_setup_run w) as (w1 & E1 & C1 & S1).
  destruct (cell_agents_run w1 C1) as (w2 & E2 & C2 & A2 & D2 & S2).
  assert (∃ w3, cell_tasks op w2 = (inl (ValueError lit), w3) ∧
                w_stdout w3 = (w_stdout w2 ++ prompt_lines)%list)
    as (w3 & E3 & S3).
  { destruct H as [[He ->]|[[e He] [Hb ->]]].
    - apply cell_tasks_bad_experience; exact He.
    - eapply cell_tasks_bad_budget; eassumption. }
  exists w3. unfold input_cells.
  rewrite (bind_ok _ _ _ _ _ E1), (bind_ok _ _ _ _ _ E2), E3.
  split; [reflexivity|].
  rewrite S3, S2, S1, <- app_assoc. reflexivity.
Qed.

(** ** [main] *)

Lemma cell_main_run endpoint ci w :
  ready ci w →
  match cell_main endpoint w with
  | (inl e, w') =>
      ∃ k o1 o2 o3 rq msg,
        e = EndpointError msg ∧
        script (w_db w) ci o1 o2 o3 !! k = Some rq ∧
        endpoint (length (w_calls w) + k)%nat rq = inl msg ∧
        w_calls w' = (w_calls w ++ take (S k) (script (w_db w) ci o1 o2 o3))%list ∧
        w_stdout w' = w_stdout w ∧
        w_globals w' !! "result" = w_globals w !! "result"
  | (inr _, w') =>
      ∃ o1 o2 o3 o4,
        endpoint (length (w_calls w)) (rq_profile ci) = inr o1 ∧
        endpoint (length (w_calls w) + 1)%nat (rq_match (w_db w) o1) = inr o2 ∧
        endpoint (length (w_calls w) + 2)%nat (rq_offer o1 o2) = inr o3 ∧
        endpoint (length (w_calls w) + 3)%nat (rq_send o2 o3) = inr o4 ∧
        w_calls w' = (w_calls w ++ script (w_db w) ci o1 o2 o3)%list ∧
        w_outputs w' !! task_send = Some o4 ∧
        w_stdout w'
        = (w_stdout w ++
           [((nl ++ "👤 Подходящий кандидат:" ++ nl) ++ " " ++ o2 ++ nl)%string;
            ((nl ++ "📤 Статус отправки:" ++ nl) ++ " " ++ o4 ++ nl)%string])%list ∧
        w_globals w' !! "result" = Some (VDict o2 o4)
  end.
Proof.
  intros R. destruct w as [g db outs so disp calls].
  py_red_in R.
  destruct R as (C & (A1 & A2 & A3 & A4 & L & _) & T1 & T2 & T3 & T4).
  py_exec.
  match goal with
  | |- context [kickoff endpoint ?ts ?W] =>
      pose proof (kickoff_outcome endpoint ci W) as K;
      pose proof (kickoff_keeps same_stdout endpoint ts
                    (execute_task_same_stdout endpoint) W) as Kso;
      pose proof (kickoff_keeps (same_binding "result") endpoint ts
                    (execute_task_same_binding "result" endpoint) W) as Kres;
      pose proof (kickoff_keeps (same_binding "task_profile") endpoint ts
                    (execute_task_same_binding _ endpoint) W) as K1;
      pose proof (kickoff_keeps (same_binding "task_match") endpoint ts
                    (execute_task_same_binding _ endpoint) W) as K2;
      pose proof (kickoff_keeps (same_binding "task_offer") endpoint ts
                    (execute_task_same_binding _ endpoint) W) as K3;
      pose proof (kickoff_keeps (same_binding "task_send") endpoint ts
                    (execute_task_same_binding _ endpoint) W) as K4;
      change ts with (declared_tasks ci) in *;
      destruct (kickoff endpoint (declared_tasks ci) W) as [[e|rs] w2]
  end.
  - destruct w2 as [g2 db2 outs2 so2 disp2 calls2].
    py_red_in Kso. py_red_in Kres. revert Kres. py_lookup. intros Kres.
    py_red_in K.
    inversion K as [|k o1 o2 o3 rq msg w' Hs He Hc]; subst.
    py_red_in Hs. py_red_in He. py_red_in Hc. py_red.
    exists k, o1, o2, o3, rq, msg. repeat split; auto.
  - destruct w2 as [g2 db2 outs2 so2 disp2 calls2].
    py_red_in Kso. py_red_in Kres. py_red_in K1. py_red_in K2.
    py_red_in K3. py_red_in K4.
    revert K1 K2 K3 K4. py_lookup. intros K1 K2 K3 K4.
    py_red_in K.
    inversion K as [o1 o2 o3 o4 w' E1 E2 E3 E4 Hc Ho|]; subst.
    py_red_in E1. py_red_in E2. py_red_in E3. py_red_in E4.
    py_red_in Hc. py_red_in Ho. subst outs2.
    py_exec.
    exists o1, o2, o3, o4. repeat split; auto.
    all: first [ rewrite <- !app_assoc; reflexivity
               | py_lookup; reflexivity ].
Qed.

(** ** The whole run *)

Ltac frame_of L E :=
  let F := fresh "F" in
  pose proof L as F; rewrite E in F;
  cbv beta iota delta
    [same_db same_calls same_outputs same_stdout same_display same_binding
     snd] in F.

Lemma run_outcome endpoint op w :
  RunOutcome endpoint op w (run endpoint op w).1 (run endpoint op w).2.
Proof.
  unfold run.
  destruct (PyStr.python_int (exp_inp op)) as [e|] eqn:He.
  2: { destruct (input_cells_bad op w (exp_inp op)) as (w1 & E & S); [auto|].
       rewrite (bind_err _ _ _ _ _ E). simpl.
       frame_of (input_cells_same_calls op w) E.
       frame_of (input_cells_same_outputs op w) E.
       frame_of (input_cells_same_result op w) E.
       apply Run_bad_experience; assumption. }
  destruct (PyStr.python_int (budget_inp op)) as [b|] eqn:Hb.
  2: { destruct (input_cells_bad op w (budget_inp op)) as (w1 & E & S);
         [right; eauto|].
       rewrite (bind_err _ _ _ _ _ E). simpl.
       frame_of (input_cells_same_calls op w) E.
       frame_of (input_cells_same_outputs op w) E.
       frame_of (input_cells_same_result op w) E.
       eapply Run_bad_budget; eassumption. }
  set (ci := {| ci_role := PyStr.strip (role_inp op);
                ci_experience_years := e; ci_budget := b;
                ci_stack := PyStr.strip <$> PyStr.split_comma (stack_inp_raw op) |}).
  assert (P : parsed op ci) by (repeat split; assumption).
  destruct (input_cells_run op w ci P) as (w1 & E & R & D & S).
  rewrite (bind_ok _ _ _ _ _ E).
  frame_of (input_cells_same_calls op w) E.
  frame_of (input_cells_same_result op w) E.
  pose proof (cell_main_run endpoint ci w1 R) as M.
  destruct (cell_main endpoint w1) as [[x|[]] w2]; simpl.
  - destruct M as (k & o1 & o2 & o3 & rq & msg & -> & Hs & Hm & Hc & Hso & Hr).
    rewrite D in Hs, Hc. rewrite F in Hm, Hc.
    eapply (Run_step_failed _ _ _ ci k o1 o2 o3 rq msg); try eassumption.
    + rewrite Hso, S. reflexivity.
    + congruence.
  - destruct M as (o1 & o2 & o3 & o4 & E1 & E2 & E3 & E4 & Hc & Ho & Hso & Hr).
    rewrite D in E2, Hc. rewrite F in E1, E2, E3, E4, Hc.
    eapply (Run_completed _ _ _ ci o1 o2 o3 o4); try eassumption.
    rewrite Hso, S, <- app_assoc. f_equal.
Qed.

Lemma new_calls_app w w' l :
  w_calls w' = (w_calls w ++ l)%list → new_calls w w' = l.
Proof. intros H. unfold new_calls. rewrite H. apply drop_app_length. Qed.



(** The task list that reaches the crew in a run is the declared one: a
    completed run issues exactly the four requests of [script]. *)
Lemma completed_run_calls endpoint op w w' :
  run endpoint op w = (inr (), w') →
  ∃ ci o1 o2 o3, parsed op ci ∧
    new_calls w w' = script candidate_db ci o1 o2 o3.
Proof.
  intros H. pose proof (run_outcome endpoint op w) as O.
  rewrite H in O. simpl in O.
  inversion O as [| | |ci o1 o2 o3 o4 w1 P E1 E2 E3 E4 Hc]; subst.
  exists ci, o1, o2, o3. split; [exact P|].
  apply new_calls_app. exact Hc.
Qed.

(** C5: a budget or experience line that [int] rejects makes the input
    cell raise [ValueError] for that line; the run stops there, before any
    of the four steps is executed. *)
Theorem non_numeric_input_raises_before_any_step endpoint op w :
  PyStr.python_int (exp_inp op) = None ∨
  PyStr.python_int (budget_inp op) = None →
  ∃ lit w',
    notebook endpoint op w = (inl (ValueError lit), w') ∧
    (lit = exp_inp op ∨ lit = budget_inp op) ∧
    PyStr.python_int lit = None ∧
    new_calls w w' = [] ∧
    w_calls w' = w_calls w ∧
    w_outputs w' = w_outputs w ∧
    (∀ msg, ValueError lit ≠ EndpointError msg).
Proof.
  intros H. pose proof (run_outcome endpoint op w) as O.
  unfold notebook.
  destruct (run endpoint op w) as [r w'] eqn:E. simpl in O.
  inversion O as [w1 He Hc Ho Hs Hr|e w1 He Hb Hc Ho Hs Hr
                 |ci k o1 o2 o3 rq msg w1 P|ci o1 o2 o3 o4 w1 P]; subst.
  - exists (exp_inp op), w'. rewrite (bind_err _ _ _ _ _ E). clear E O.
    split; [reflexivity|]. split; [left; reflexivity|].
    split; [exact He|]. split; [|split; [exact Hc|]].
    + apply new_calls_app. rewrite Hc, app_nil_r. reflexivity.
    + split; [exact Ho|]. intros msg [=].
  - exists (budget_inp op), w'. rewrite (bind_err _ _ _ _ _ E). clear E O.
    split; [reflexivity|]. split; [right; reflexivity|].
    split; [exact Hb|]. split; [|split; [exact Hc|]].
    + apply new_calls_app. rewrite Hc, app_nil_r. reflexivity.
    + split; [exact Ho|]. intros msg [=].
  - destruct P as (He & Hb & _). destruct H; congruence.
  - destruct P as (He & Hb & _). destruct H; congruence.
Qed.

Lemma non_numeric_input_raises_before_any_step_witness :
  ∃ lit w',
    notebook canned_endpoint op_bad_budget fresh_kernel
    = (inl (ValueError lit), w') ∧
    (lit = exp_inp op_bad_budget ∨ lit = budget_inp op_bad_budget) ∧
    PyStr.python_int lit = None ∧
    new_calls fresh_kernel w' = [] ∧
    w_calls w' = w_calls fresh_kernel ∧
    w_outputs w' = w_outputs fresh_kernel ∧
    (∀ msg, ValueError lit ≠ EndpointError msg).
Proof.
  apply (non_numeric_input_raises_before_any_step canned_endpoint
           op_bad_budget fresh_kernel).
  right. reflexivity.
Defined.

Lemma run_failed_display_not_reached endpoint op w e w' :
  run endpoint op w = (inl e, w') → notebook endpoint op w = (inl e, w').
Proof. intros H. unfold notebook. apply bind_err. exact H. Qed.

Lemma script_prefix db ci o1 o2 o3 k rq :
  script db ci o1 o2 o3 !! k = Some rq →
  take (S k) (script db ci o1 o2 o3)
  = (take k (script db ci o1 o2 o3) ++ [rq])%list ∧
  length (take k (script db ci o1 o2 o3)) = k ∧
  (rq_task <$> take (S k) (script db ci o1 o2 o3)) `prefix_of`
    declaration_order.
Proof.
  intros H.
  destruct k as [|[|[|[|k]]]]; simpl in H; try discriminate H;
    injection H as <-; (split; [reflexivity|]); (split; [reflexivity|]).
  - exists [task_match; task_offer; task_send]. reflexivity.
  - exists [task_offer; task_send]. reflexivity.
  - exists [task_send]. reflexivity.
  - exists []. reflexivity.
Qed.

(** ** The run and its trace *)

Lemma kickoff_crew_trace endpoint ci w :
  (kickoff endpoint (declared_tasks ci) w).1
  = (crew_trace endpoint (length (w_calls w)) (w_db w) ci).1 ∧
  w_calls (kickoff endpoint (declared_tasks ci) w).2
  = (w_calls w ++ (crew_trace endpoint (length (w_calls w)) (w_db w) ci).2)%list.
Proof.
  destruct w as [g db outs so disp calls].
  unfold crew_trace. py_red_crew.
  fold (rq_profile ci).
  destruct (endpoint (length calls) (rq_profile ci)) as [m1|o1]; py_exec;
    [split; reflexivity|].
  rewrite length_app. cbn [length]. fold (rq_match db o1).
  destruct (endpoint (length calls + 1)%nat (rq_match db o1)) as [m2|o2];
    py_exec; [split; [reflexivity | rewrite <- !app_assoc; reflexivity]|].
  rewrite !length_app. cbn [length]. rewrite <- Nat.add_assoc. cbn [Nat.add].
  fold (rq_offer o1 o2).
  destruct (endpoint (length calls + 2)%nat (rq_offer o1 o2)) as [m3|o3];
    py_exec; [split; [reflexivity | rewrite <- !app_assoc; reflexivity]|].
  rewrite !length_app. cbn [length]. rewrite <- !Nat.add_assoc. cbn [Nat.add].
  fold (rq_send o2 o3).
  destruct (endpoint (length calls + 3)%nat (rq_send o2 o3)) as [m4|o4];
    py_exec; (split; [reflexivity | rewrite <- !app_assoc; reflexivity]).
Qed.

Lemma cell_main_trace endpoint ci w :
  ready ci w →
  (cell_main endpoint w).1
  = match (crew_trace endpoint (length (w_calls w)) (w_db w) ci).1 with
    | inl e => inl e
    | inr _ => inr ()
    end ∧
  w_calls (cell_main endpoint w).2
  = (w_calls w ++ (crew_trace endpoint (length (w_calls w)) (w_db w) ci).2)%list.
Proof.
  intros R. destruct w as [g db outs so disp calls].
  py_red_in R.
  destruct R as (C & (A1 & A2 & A3 & A4 & L & _) & T1 & T2 & T3 & T4).
  py_exec.
  match goal with
  | |- context [kickoff endpoint ?ts ?W] =>
      pose proof (kickoff_outcome endpoint ci W) as K;
      pose proof (kickoff_crew_trace endpoint ci W) as [Tr Tc];
      pose proof (kickoff_keeps (same_binding "task_profile") endpoint ts
                    (execute_task_same_binding _ endpoint) W) as K1;
      pose proof (kickoff_keeps (same_binding "task_match") endpoint ts
                    (execute_task_same_binding _ endpoint) W) as K2;
      pose proof (kickoff_keeps (same_binding "task_offer") endpoint ts
                    (execute_task_same_binding _ endpoint) W) as K3;
      pose proof (kickoff_keeps (same_binding "task_send") endpoint ts
                    (execute_task_same_binding _ endpoint) W) as K4;
      change ts with (declared_tasks ci) in *;
      destruct (kickoff endpoint (declared_tasks ci) W) as [[e|rs] w2]
  end.
  - py_red_in Tr. py_red_in Tc. py_red. rewrite <- Tr. split; [reflexivity|].
    exact Tc.
  - destruct w2 as [g2 db2 outs2 so2 disp2 calls2].
    py_red_in Tr. py_red_in Tc.
    py_red_in K1. py_red_in K2. py_red_in K3. py_red_in K4.
    revert K1 K2 K3 K4. py_lookup. intros K1 K2 K3 K4.
    py_red_in K.
    inversion K as [o1 o2 o3 o4 w'' E1 E2 E3 E4 Hc Ho|]; subst.
    py_red_in Ho. subst outs2.
    py_exec. rewrite <- Tr. split; [reflexivity|].
    first [exact Tc | reflexivity | congruence].
Qed.

(** The run refines [run_trace]. *)
Lemma run_refines_trace endpoint op w :
  (run endpoint op w).1 = (run_trace endpoint op (length (w_calls w))).1 ∧
  new_calls w (run endpoint op w).2
  = (run_trace endpoint op (length (w_calls w))).2.
Proof.
  unfold run, run_trace.
  destruct (PyStr.python_int (exp_inp op)) as [e|] eqn:He.
  2: { destruct (input_cells_bad op w (exp_inp op)) as (w1 & E & S); [auto|].
       rewrite (bind_err _ _ _ _ _ E). cbn [fst snd].
       frame_of (input_cells_same_calls op w) E.
       split; [reflexivity|]. apply new_calls_app.
       rewrite F, app_nil_r. reflexivity. }
  destruct (PyStr.python_int (budget_inp op)) as [b|] eqn:Hb.
  2: { destruct (input_cells_bad op w (budget_inp op)) as (w1 & E & S);
         [right; eauto|].
       rewrite (bind_err _ _ _ _ _ E). cbn [fst snd].
       frame_of (input_cells_same_calls op w) E.
       split; [reflexivity|]. apply new_calls_app.
       rewrite F, app_nil_r. reflexivity. }
  set (ci := {| ci_role := PyStr.strip (role_inp op);
                ci_experience_years := e; ci_budget := b;
                ci_stack := PyStr.strip <$> PyStr.split_comma (stack_inp_raw op) |}).
  assert (P : parsed op ci) by (repeat split; assumption).
  destruct (input_cells_run op w ci P) as (w1 & E & R & D & S).
  rewrite (bind_ok _ _ _ _ _ E).
  frame_of (input_cells_same_calls op w) E.
  destruct (cell_main_trace endpoint ci w1 R) as [Tr Tc].
  rewrite D, F in Tr, Tc. cbv zeta.
  destruct (crew_trace endpoint (length (w_calls w)) candidate_db ci)
    as [[x|rs] calls]; cbn [fst snd] in *;
    (split; [exact Tr | apply new_calls_app; exact Tc]).
Qed.

(** ** Failures *)

(** [main] does nothing after a [crew.kickoff()] that raises: the kernel
    is left as the crew left it. *)
Lemma cell_main_stops_at_kickoff endpoint ci w :
  ready ci w →
  ∃ w0, w_calls w0 = w_calls w ∧ w_db w0 = w_db w ∧
        w_outputs w0 = w_outputs w ∧ w_stdout w0 = w_stdout w ∧
        ∀ e w', cell_main endpoint w = (inl e, w') →
                kickoff endpoint (declared_tasks ci) w0 = (inl e, w').
Proof.
  intros R. destruct w as [g db outs so disp calls].
  py_red_in R.
  destruct R as (C & (A1 & A2 & A3 & A4 & L & _) & T1 & T2 & T3 & T4).
  exists {| w_globals := <["main" := VOpaque]> (<["Process" := VOpaque]> g);
            w_db := db; w_outputs := outs; w_stdout := so;
            w_display := disp; w_calls := calls |}.
  repeat (split; [reflexivity|]).
  intros e w'.
  py_exec.
  match goal with
  | |- context [kickoff endpoint ?ts ?W] =>
      pose proof (kickoff_outcome endpoint ci W) as K;
      pose proof (kickoff_keeps (same_binding "task_profile") endpoint ts
                    (execute_task_same_binding _ endpoint) W) as K1;
      pose proof (kickoff_keeps (same_binding "task_match") endpoint ts
                    (execute_task_same_binding _ endpoint) W) as K2;
      pose proof (kickoff_keeps (same_binding "task_offer") endpoint ts
                    (execute_task_same_binding _ endpoint) W) as K3;
      pose proof (kickoff_keeps (same_binding "task_send") endpoint ts
                    (execute_task_same_binding _ endpoint) W) as K4;
      change ts with (declared_tasks ci) in *;
      destruct (kickoff endpoint (declared_tasks ci) W) as [[x|rs] w2]
  end.
  - py_red. intros [= -> ->]. reflexivity.
  - destruct w2 as [g2 db2 outs2 so2 disp2 calls2].
    py_red_in K1. py_red_in K2. py_red_in K3. py_red_in K4.
    revert K1 K2 K3 K4. py_lookup. intros K1 K2 K3 K4.
    py_red_in K.
    inversion K as [o1 o2 o3 o4 w'' E1 E2 E3 E4 Hc Ho|]; subst.
    py_red_in Ho. subst outs2.
    py_exec. intros [=].
Qed.

Lemma run_stops_at_kickoff endpoint op w ci :
  parsed op ci →
  ∃ w0, w_calls w0 = w_calls w ∧
        w_stdout w0
        = (w_stdout w ++ ("---" ++ nl)%string :: prompt_lines
             ++ [(input_received op ++ nl)%string])%list ∧
        ∀ e w', run endpoint op w = (inl e, w') →
                kickoff endpoint (declared_tasks ci) w0 = (inl e, w').
Proof.
  intros P. destruct (input_cells_run op w ci P) as (w1 & E & R & D & S).
  frame_of (input_cells_same_calls op w) E.
  destruct (cell_main_stops_at_kickoff endpoint ci w1 R)
    as (w0 & Hc & _ & _ & Hs & K).
  exists w0. split; [congruence|]. split; [congruence|].
  intros e w'. unfold run. rewrite (bind_ok _ _ _ _ _ E). apply K.
Qed.

Lemma parsed_record op ci :
  parsed op ci →
  ci = {| ci_role := PyStr.strip (role_inp op);
          ci_experience_years := ci_experience_years ci;
          ci_budget := ci_budget ci;
          ci_stack := PyStr.strip <$> PyStr.split_comma (stack_inp_raw op) |}.
Proof.
  intros (_ & _ & Hr & Hs). destruct ci as [r e b s]. simpl in *.
  rewrite Hr, Hs. reflexivity.
Qed.

(** The crew stops at the first execution that raises. *)
Lemma crew_trace_failure endpoint n db ci k o1 o2 o3 rq msg :
  answered endpoint n (take k (script db ci o1 o2 o3)) (take k [o1; o2; o3]) →
  script db ci o1 o2 o3 !! k = Some rq →
  endpoint (n + k)%nat rq = inl msg →
  crew_trace endpoint n db ci
  = (inl (EndpointError msg), take (S k) (script db ci o1 o2 o3)).
Proof.
  intros A Hk Hm. unfold crew_trace.
  replace (n + 1)%nat with (S n) by lia.
  replace (n + 2)%nat with (S (S n)) by lia.
  replace (n + 3)%nat with (S (S (S n))) by lia.
  destruct k as [|[|[|[|k]]]]; simpl in A, Hk; try discriminate Hk;
    injection Hk as <-.
  - rewrite Nat.add_0_r in Hm. rewrite Hm. reflexivity.
  - replace (n + 1)%nat with (S n) in Hm by lia.
    destruct A as (-> & _). rewrite Hm. reflexivity.
  - replace (n + 2)%nat with (S (S n)) in Hm by lia.
    destruct A as (-> & -> & _). rewrite Hm. reflexivity.
  - replace (n + 3)%nat with (S (S (S n))) in Hm by lia.
    destruct A as (-> & -> & -> & _). rewrite Hm. reflexivity.
Qed.

Lemma run_trace_step_failure endpoint op n ci k o1 o2 o3 rq msg :
  parsed op ci →
  answered endpoint n (take k (script candidate_db ci o1 o2 o3))
    (take k [o1; o2; o3]) →
  script candidate_db ci o1 o2 o3 !! k = Some rq →
  endpoint (n + k)%nat rq = inl msg →
  run_trace endpoint op n
  = (inl (EndpointError msg), take (S k) (script candidate_db ci o1 o2 o3)).
Proof.
  intros P A Hk Hm. pose proof (parsed_record op ci P) as R.
  destruct P as (He & Hb & _). unfold run_trace. rewrite He, Hb. cbv zeta.
  rewrite <- R. rewrite (crew_trace_failure _ _ _ _ _ _ _ _ _ _ A Hk Hm).
  reflexivity.
Qed.

(** C7: an exception raised during the run is not caught and nothing is
    retried.  Whenever a conversion of the input cell fails, or the
    endpoint raises in some task execution after answering the executions
    before it, the run ends with that very exception, and the failed
    execution is the last one started.  Conversely a failed run ends in
    one of these two ways: with the [ValueError] of the input cell and no
    step executed, or with the exception of a task execution, the
    executions so far following the declaration order without repetition
    and the kernel being left as [crew.kickoff()] left it: nothing that
    follows the crew run in [main] is executed.  In both cases no [result]
    is bound and the display cell is not reached. *)
Theorem failure_aborts_run endpoint op w :
  (PyStr.python_int (exp_inp op) = None →
   (run endpoint op w).1 = inl (ValueError (exp_inp op))) ∧
  (∀ years, PyStr.python_int (exp_inp op) = Some years →
            PyStr.python_int (budget_inp op) = None →
   (run endpoint op w).1 = inl (ValueError (budget_inp op))) ∧
  (∀ ci k o1 o2 o3 rq msg,
      parsed op ci →
      answered endpoint (length (w_calls w))
        (take k (script candidate_db ci o1 o2 o3)) (take k [o1; o2; o3]) →
      script candidate_db ci o1 o2 o3 !! k = Some rq →
      endpoint (length (w_calls w) + k)%nat rq = inl msg →
      (run endpoint op w).1 = inl (EndpointError msg) ∧
      new_calls w (run endpoint op w).2
      = take (S k) (script candidate_db ci o1 o2 o3)) ∧
  (∀ e w', run endpoint op w = (inl e, w') →
     ((∃ lit, e = ValueError lit ∧ PyStr.python_int lit = None ∧
              new_calls w w' = [] ∧
              w_stdout w'
              = (w_stdout w ++ ("---" ++ nl)%string :: prompt_lines)%list) ∨
      (∃ ci msg pre rq w0,
          parsed op ci ∧ e = EndpointError msg ∧
          w_calls w0 = w_calls w ∧
          w_stdout w0
          = (w_stdout w ++ ("---" ++ nl)%string :: prompt_lines
               ++ [(input_received op ++ nl)%string])%list ∧
          kickoff endpoint (declared_tasks ci) w0 = (inl e, w') ∧
          new_calls w w' = (pre ++ [rq])%list ∧
          endpoint (length (w_calls w) + length pre)%nat rq = inl msg ∧
          (rq_task <$> (pre ++ [rq])%list) `prefix_of` declaration_order)) ∧
     w_globals w' !! "result" = w_globals w !! "result" ∧
     notebook endpoint op w = (inl e, w')).
Proof.
  destruct (run_refines_trace endpoint op w) as [T C].
  split; [|split; [|split]].
  - intros He. rewrite T. unfold run_trace. rewrite He. reflexivity.
  - intros years He Hb. rewrite T. unfold run_trace. rewrite He, Hb.
    reflexivity.
  - intros ci k o1 o2 o3 rq msg P A Hk Hm. rewrite T, C.
    rewrite (run_trace_step_failure _ _ _ _ _ _ _ _ _ _ P A Hk Hm).
    split; reflexivity.
  - clear T C. intros e w' H.
    pose proof (run_outcome endpoint op w) as O.
    pose proof (run_failed_display_not_reached _ _ _ _ _ H) as N.
    assert (SK : ∀ ci, parsed op ci →
              ∃ w0, w_calls w0 = w_calls w ∧
                    w_stdout w0
                    = (w_stdout w ++ ("---" ++ nl)%string :: prompt_lines
                         ++ [(input_received op ++ nl)%string])%list ∧
                    kickoff endpoint (declared_tasks ci) w0 = (inl e, w')).
    { intros ci P.
      destruct (run_stops_at_kickoff endpoint op w ci P) as (w0 & A & B & K).
      exists w0. auto. }
    rewrite H in O. cbn [fst snd] in O. clear H.
    inversion O as [w1 He Hc Ho Hs Hr|b w1 He Hb Hc Ho Hs Hr
                   |ci k o1 o2 o3 rq msg w1 P Hk Hm Hc Hs Hr|]; subst;
      (split; [|split; [exact Hr | exact N]]).
    + left. exists (exp_inp op). repeat split; try assumption.
      apply new_calls_app. rewrite Hc, app_nil_r. reflexivity.
    + left. exists (budget_inp op). repeat split; try assumption.
      apply new_calls_app. rewrite Hc, app_nil_r. reflexivity.
    + right.
      destruct (script_prefix _ _ _ _ _ _ _ Hk) as (Tk & L & Pre).
      destruct (SK ci P) as (w0 & A & B & K).
      exists ci, msg, (take k (script candidate_db ci o1 o2 o3)), rq, w0.
      rewrite <- Tk, L.
      repeat split; try assumption; try apply P.
      apply new_calls_app. exact Hc.
Qed.

Lemma failure_aborts_run_witness :
  (run (failing_endpoint 2) op_backend fresh_kernel).1
  = inl (EndpointError "connection refused") ∧
  new_calls fresh_kernel (run (failing_endpoint 2) op_backend fresh_kernel).2
  = take 3 (script candidate_db inp_backend "{candidate_profile}"
             "{matched_candidate: c-202}" "").
Proof.
  refine (proj1 (proj2 (proj2
            (failure_aborts_run (failing_endpoint 2) op_backend fresh_kernel)))
            inp_backend 2%nat "{candidate_profile}" "{matched_candidate: c-202}"
            "" _ "connection refused" _ _ _ _).
  - vm_compute. repeat split; reflexivity.
  - vm_compute. repeat split; reflexivity.
  - reflexivity.
  - reflexivity.
Defined.

(** ** The candidate store *)

Lemma cell_display_same_calls : keeps same_calls cell_display.
Proof. unfold_cells. keeps_auto. Qed.

Lemma input_cells_db op w : w_db (input_cells op w).2 = candidate_db.
Proof.
  destruct (cell_setup_run w) as (w1 & E1 & C1 & S1).
  destruct (cell_agents_run w1 C1) as (w2 & E2 & C2 & A2 & D2 & S2).
  unfold input_cells.
  rewrite (bind_ok _ _ _ _ _ E1), (bind_ok _ _ _ _ _ E2).
  rewrite <- D2. apply cell_tasks_same_db.
Qed.

Lemma run_db endpoint op w : w_db (run endpoint op w).2 = candidate_db.
Proof.
  unfold run, mbind, py_bind.
  pose proof (input_cells_db op w) as D.
  destruct (input_cells op w) as [[e|[]] w1]; simpl in *; [exact D|].
  rewrite <- D. apply cell_main_same_db.
Qed.

Lemma notebook_db endpoint op w :
  w_db (notebook endpoint op w).2 = candidate_db.
Proof.
  unfold notebook, mbind, py_bind.
  pose proof (run_db endpoint op w) as D.
  destruct (run endpoint op w) as [[e|[]] w1]; simpl in *; [exact D|].
  rewrite <- D. apply cell_display_same_db.
Qed.

Lemma notebook_calls endpoint op w :
  w_calls (notebook endpoint op w).2 = w_calls (run endpoint op w).2.
Proof.
  unfold notebook, mbind, py_bind.
  destruct (run endpoint op w) as [[e|[]] w1]; simpl; [reflexivity|].
  apply cell_display_same_calls.
Qed.

Lemma script_input_data ci o1 o2 o3 rq :
  In rq (script candidate_db ci o1 o2 o3) →
  rq_input_data rq
  = if decide (rq_task rq = task_match) then Some candidate_db else None.
Proof.
  simpl. intros [<-|[<-|[<-|[<-|[]]]]]; reflexivity.
Qed.

Lemma In_take {A} (l : list A) k x : In x (take k l) → In x l.
Proof.
  revert k. induction l as [|y l IH]; intros [|k]; simpl; try tauto.
  intros [->|H]; eauto.
Qed.

Lemma run_requests endpoint op w rq :
  In rq (new_calls w (run endpoint op w).2) →
  rq_input_data rq
  = if decide (rq_task rq = task_match) then Some candidate_db else None.
Proof.
  pose proof (run_outcome endpoint op w) as O.
  destruct (run endpoint op w) as [r w']. cbn [fst snd] in *.
  inversion O as [w1 He Hc Ho Hs Hr|b w1 He Hb Hc Ho Hs Hr
                 |ci k o1 o2 o3 rq' msg w1 P Hk Hm Hc Hs Hr
                 |ci o1 o2 o3 o4 w1 P E1 E2 E3 E4 Hc]; subst.
  - rewrite (new_calls_app w w' []); [intros []|].
    rewrite Hc, app_nil_r. reflexivity.
  - rewrite (new_calls_app w w' []); [intros []|].
    rewrite Hc, app_nil_r. reflexivity.
  - rewrite (new_calls_app _ _ _ Hc). intros H.
    apply In_take in H. eapply script_input_data; exact H.
  - rewrite (new_calls_app _ _ _ Hc). apply script_input_data.
Qed.

(** C6: the store is created once, by the agents cell, and nothing
    afterwards writes to it: every cell and every step of the crew leaves
    it as it is, at the end of the run it still holds the six records, and
    only the matching step is handed the store. *)
Theorem candidate_store_never_mutated endpoint op w :
  w_db (cell_agents w).2 = candidate_db ∧
  w_db (notebook endpoint op w).2 = candidate_db ∧
  (keeps same_db cell_setup ∧ keeps same_db (cell_tasks op) ∧
   keeps same_db (cell_main endpoint) ∧ keeps same_db cell_display) ∧
  (∀ t done, keeps same_db (execute_task endpoint t done)) ∧
  (∀ ts, keeps same_db (kickoff endpoint ts)) ∧
  (∀ rq, In rq (new_calls w (notebook endpoint op w).2) →
         rq_input_data rq
         = if decide (rq_task rq = task_match) then Some candidate_db
           else None) ∧
  (∀ ci t, In t (declared_tasks ci) →
           t_input_data t
           = if decide (t_id t = task_match) then Some Ref_candidate_db
             else None).
Proof.
  split; [destruct w; reflexivity|].
  split; [apply notebook_db|].
  split.
  { auto using cell_setup_same_db, cell_tasks_same_db, cell_main_same_db,
      cell_display_same_db. }
  split; [apply execute_task_same_db|].
  split.
  { intros ts. apply kickoff_keeps; [tc_solve | apply execute_task_same_db]. }
  split.
  - intros rq. unfold new_calls. rewrite notebook_calls. apply run_requests.
  - intros ci t. simpl. intros [<-|[<-|[<-|[<-|[]]]]]; reflexivity.
Qed.

(** ** The display cell *)

Lemma run_same_final_status endpoint op :
  keeps (same_binding "final_status") (run endpoint op).
Proof.
  unfold run. apply keeps_bind; [tc_solve | |intros _].
  - apply input_cells_same_final_status.
  - apply cell_main_same_final_status.
Qed.

Lemma run_same_display endpoint op : keeps same_display (run endpoint op).
Proof.
  unfold run. apply keeps_bind; [tc_solve | |intros _].
  - apply input_cells_same_display.
  - apply cell_main_same_display.
Qed.

Lemma cell_display_unbound w :
  w_globals w !! "final_status" = None →
  ∃ w', cell_display w = (inl (NameError "final_status"), w') ∧
        w_display w' = w_display w ∧ w_outputs w' = w_outputs w.
Proof.
  intros H. destruct w. py_red_in H. py_exec.
  eexists. split; [reflexivity|]. split; reflexivity.
Qed.

(** What the display cell would do with a bound [final_status]: the
    [raw] text goes to the display area as it is. *)
Lemma cell_display_verbatim w raw :
  w_globals w !! "final_status" = Some (VTaskOutput raw) →
  ∃ w', cell_display w = (inr (), w') ∧
        w_display w' = (w_display w ++ [raw])%list.
Proof.
  intros H. destruct w. py_red_in H. py_exec.
  eexists. split; reflexivity.
Qed.

(** No cell binds [final_status]: started without that name, a completed
    run is followed by a [NameError] in the display cell, and nothing is
    rendered. *)
Lemma notebook_never_displays endpoint op w w' :
  w_globals w !! "final_status" = None →
  run endpoint op w = (inr (), w') →
  ∃ w'', notebook endpoint op w = (inl (NameError "final_status"), w'') ∧
         w_display w'' = w_display w ∧
         w_outputs w'' = w_outputs w'.
Proof.
  intros U H.
  pose proof (run_same_final_status endpoint op w) as F.
  pose proof (run_same_display endpoint op w) as D.
  rewrite H in F, D. unfold same_binding, same_display in F, D.
  cbn [snd] in F, D. rewrite U in F.
  destruct (cell_display_unbound w' F) as (w'' & E & Hd & Ho).
  exists w''. unfold notebook. rewrite (bind_ok _ _ _ _ _ H).
  split; [exact E|]. split; congruence.
Qed.

(** [main] itself hands the send step's output on unchanged: the
    dictionary it returns holds it under "status". *)
Lemma main_returns_send_output endpoint op w w' :
  run endpoint op w = (inr (), w') →
  ∃ candidate status,
    w_globals w' !! "result" = Some (VDict candidate status) ∧
    w_outputs w' !! task_send = Some status.
Proof.
  intros H. pose proof (run_outcome endpoint op w) as O.
  rewrite H in O. cbn [fst snd] in O. clear H.
  inversion O as [| | |ci o1 o2 o3 o4 w1 P E1 E2 E3 E4 Hc Ho Hs Hr]; subst.
  eauto.
Qed.

(** C8 (the code departs from the claim): on a completed run for the
    Backend Developer profile the display cell does not render the send
    step's output; reading [final_status] raises [NameError] and the
    display area stays empty, although the output exists and [main] has
    returned it under "status". *)
Theorem display_cell_raises_name_error :
  (notebook canned_endpoint op_backend fresh_kernel).1
  = inl (NameError "final_status") ∧
  w_display (notebook canned_endpoint op_backend fresh_kernel).2 = [] ∧
  w_outputs (notebook canned_endpoint op_backend fresh_kernel).2 !! task_send
  = Some send_confirmation ∧
  w_globals (notebook canned_endpoint op_backend fresh_kernel).2 !! "result"
  = Some (VDict "{matched_candidate: c-202}" send_confirmation) ∧
  w_globals (notebook canned_endpoint op_backend fresh_kernel).2
    !! "final_status" = None.
Proof. vm_compute. repeat split; reflexivity. Qed.

(** * Further properties of the input cell *)

Lemma lstrip_length s :
  (String.length (PyStr.lstrip s) <= String.length s)%nat.
Proof.
  induction s as [|c r IH]; simpl; [lia|].
  destruct (PyStr.is_space c); simpl; lia.
Qed.

Lemma lstrip_fixed s :
  PyStr.lstrip s = s →
  s = EmptyString ∨ ∃ c r, s = String c r ∧ PyStr.is_space c = false.
Proof.
  destruct s as [|c r]; [auto|]. simpl.
  destruct (PyStr.is_space c) eqn:E; [|eauto].
  intros H. pose proof (lstrip_length r) as L. rewrite H in L.
  simpl in L. lia.
Qed.

Lemma lstrip_idem s : PyStr.lstrip (PyStr.lstrip s) = PyStr.lstrip s.
Proof.
  induction s as [|c r IH]; simpl; [reflexivity|].
  destruct (PyStr.is_space c) eqn:E; [exact IH|].
  simpl. rewrite E. reflexivity.
Qed.

Lemma rstrip_idem s : PyStr.rstrip (PyStr.rstrip s) = PyStr.rstrip s.
Proof.
  induction s as [|c r IH]; simpl; [reflexivity|].
  destruct (PyStr.is_space c && PyStr.is_empty (PyStr.rstrip r)) eqn:E;
    [reflexivity|].
  simpl. rewrite IH, E. reflexivity.
Qed.

Lemma lstrip_rstrip s :
  PyStr.lstrip s = s → PyStr.lstrip (PyStr.rstrip s) = PyStr.rstrip s.
Proof.
  intros H. destruct (lstrip_fixed s H) as [->|(c & r & -> & E)];
    [reflexivity|].
  simpl. rewrite E. simpl. rewrite E. reflexivity.
Qed.

Lemma strip_trimmed s : trimmed (PyStr.strip s).
Proof.
  unfold trimmed, PyStr.strip. split.
  - apply lstrip_rstrip, lstrip_idem.
  - apply rstrip_idem.
Qed.

Lemma count_commas_lstrip s :
  (PyStr.count_commas (PyStr.lstrip s) <= PyStr.count_commas s)%nat.
Proof.
  induction s as [|c r IH]; simpl; [lia|].
  destruct (PyStr.is_space c); simpl; lia.
Qed.

Lemma count_commas_rstrip s :
  (PyStr.count_commas (PyStr.rstrip s) <= PyStr.count_commas s)%nat.
Proof.
  induction s as [|c r IH]; simpl; [lia|].
  destruct (PyStr.is_space c && PyStr.is_empty (PyStr.rstrip r)); simpl; lia.
Qed.

Lemma split_comma_pieces s p :
  In p (PyStr.split_comma s) → PyStr.count_commas p = 0%nat.
Proof.
  revert p. induction s as [|c r IH]; simpl; intros p.
  - intros [<-|[]]. reflexivity.
  - destruct (Ascii.eqb c ",") eqn:E.
    + intros [<-|H]; [reflexivity | auto].
    + destruct (PyStr.split_comma r) as [|h t].
      * intros [<-|[]]. simpl. rewrite E. reflexivity.
      * intros [<-|H].
        -- simpl. rewrite E. apply IH. simpl; auto.
        -- apply IH. simpl; auto.
Qed.

Lemma make_candidate_input_fields role exp budget stack w ci w' :
  make_candidate_input role exp budget stack w = (inr ci, w') →
  w' = w ∧
  ci_role ci = PyStr.strip role ∧
  PyStr.python_int exp = Some (ci_experience_years ci) ∧
  PyStr.python_int budget = Some (ci_budget ci) ∧
  ci_stack ci = PyStr.strip <$> PyStr.split_comma stack.
Proof.
  unfold make_candidate_input, py_int, mbind, py_bind, mret, py_ret, raise.
  destruct (PyStr.python_int exp); [|discriminate].
  destruct (PyStr.python_int budget); [|discriminate].
  intros [= <- <-]. repeat split; reflexivity.
Qed.

Lemma make_candidate_input_ok role exp budget stack w e b :
  PyStr.python_int exp = Some e → PyStr.python_int budget = Some b →
  make_candidate_input role exp budget stack w
  = (inr {| ci_role := PyStr.strip role; ci_experience_years := e;
            ci_budget := b;
            ci_stack := PyStr.strip <$> PyStr.split_comma stack |}, w).
Proof.
  intros He Hb.
  unfold make_candidate_input, py_int, mbind, py_bind, mret, py_ret, raise.
  rewrite He, Hb. reflexivity.
Qed.

(** X1: in the [candidate_input] the input cell builds, the role and
    every stack entry have no white space left at either end, and no
    stack entry contains a comma. *)
Theorem candidate_input_entries_clean role exp budget stack w ci w' :
  make_candidate_input role exp budget stack w = (inr ci, w') →
  trimmed (ci_role ci) ∧
  ∀ e, In e (ci_stack ci) → trimmed e ∧ PyStr.count_commas e = 0%nat.
Proof.
  intros H. apply make_candidate_input_fields in H as (_ & Hr & _ & _ & Hs).
  rewrite Hr, Hs. split; [apply strip_trimmed|].
  intros e He. apply in_map_iff in He as (p & <- & Hp).
  split; [apply strip_trimmed|].
  apply split_comma_pieces in Hp.
  pose proof (count_commas_rstrip (PyStr.lstrip p)).
  pose proof (count_commas_lstrip p).
  unfold PyStr.strip. lia.
Qed.

Lemma candidate_input_entries_clean_witness :
  trimmed (ci_role inp_backend) ∧
  ∀ e, In e (ci_stack inp_backend) →
       trimmed e ∧ PyStr.count_commas e = 0%nat.
Proof.
  exact (candidate_input_entries_clean
           "Backend Developer" "4" "4000" "Node.js" fresh_kernel
           inp_backend fresh_kernel eq_refl).
Defined.

Lemma split_comma_nonempty s : PyStr.split_comma s ≠ [].
Proof.
  destruct s as [|c r]; simpl; [discriminate|].
  destruct (Ascii.eqb c ","); [discriminate|].
  destruct (PyStr.split_comma r); discriminate.
Qed.

(** X2: [split(",")] loses nothing: joining the pieces with commas gives
    the operator's line back. *)
Theorem split_comma_join s :
  String.concat "," (PyStr.split_comma s) = s.
Proof.
  induction s as [|c r IH]; [reflexivity|].
  cbn [PyStr.split_comma].
  pose proof (split_comma_nonempty r) as N.
  destruct (Ascii.eqb_spec c ",") as [->|Hc].
  - destruct (PyStr.split_comma r) as [|h t]; [congruence|].
    change (String.concat "," ("" :: h :: t))
      with ("" ++ "," ++ String.concat "," (h :: t)).
    rewrite IH. reflexivity.
  - destruct (PyStr.split_comma r) as [|h t]; [congruence|].
    destruct t as [|h' t].
    + simpl in *. rewrite IH. reflexivity.
    + change (String.concat "," (String c h :: h' :: t))
        with (String c (h ++ "," ++ String.concat "," (h' :: t))).
      change (String.concat "," (h :: h' :: t))
        with (h ++ "," ++ String.concat "," (h' :: t)) in IH.
      rewrite IH. reflexivity.
Qed.

Lemma append_nil_l (s : string) : "" ++ s = s.
Proof. reflexivity. Qed.

Lemma append_cons c (r s : string) : String c r ++ s = String c (r ++ s).
Proof. reflexivity. Qed.

Ltac app_simpl := rewrite ?append_nil_l, ?append_cons; simpl.

Lemma lstrip_all_space ws : all_space ws = true → PyStr.lstrip ws = "".
Proof.
  induction ws as [|c r IH]; simpl; [reflexivity|].
  intros H. apply andb_true_iff in H as [-> H]. auto.
Qed.

Lemma rstrip_all_space ws : all_space ws = true → PyStr.rstrip ws = "".
Proof.
  induction ws as [|c r IH]; simpl; [reflexivity|].
  intros H. apply andb_true_iff in H as [-> H]. rewrite (IH H). reflexivity.
Qed.

Lemma lstrip_pad ws s :
  all_space ws = true → PyStr.lstrip (ws ++ s) = PyStr.lstrip s.
Proof.
  induction ws as [|c r IH]; app_simpl; [reflexivity|].
  intros H. apply andb_true_iff in H as [-> H]. auto.
Qed.

Lemma rstrip_pad s ws :
  all_space ws = true → PyStr.rstrip (s ++ ws) = PyStr.rstrip s.
Proof.
  intros H. induction s as [|c r IH]; app_simpl.
  - apply rstrip_all_space, H.
  - rewrite IH. reflexivity.
Qed.

Lemma rstrip_lstrip_pad s ws :
  all_space ws = true →
  PyStr.rstrip (PyStr.lstrip (s ++ ws)) = PyStr.rstrip (PyStr.lstrip s).
Proof.
  intros H. induction s as [|c r IH]; app_simpl.
  - rewrite (lstrip_all_space ws H). reflexivity.
  - destruct (PyStr.is_space c); [exact IH|].
    rewrite <- append_cons. apply rstrip_pad, H.
Qed.

(** Blanks around a line are invisible to [strip]. *)
Lemma strip_pad ws s ws' :
  all_space ws = true → all_space ws' = true →
  PyStr.strip (ws ++ s ++ ws') = PyStr.strip s.
Proof.
  intros H H'. unfold PyStr.strip.
  rewrite (lstrip_pad ws _ H). apply rstrip_lstrip_pad, H'.
Qed.

Lemma append_empty_r s : s ++ "" = s.
Proof. induction s as [|c r IH]; app_simpl; [reflexivity|]. now rewrite IH. Qed.

Lemma strip_pad_l ws s :
  all_space ws = true → PyStr.strip (ws ++ s) = PyStr.strip s.
Proof.
  intros H. rewrite <- (append_empty_r s) at 1. now apply strip_pad.
Qed.

Lemma strip_pad_r s ws :
  all_space ws = true → PyStr.strip (s ++ ws) = PyStr.strip s.
Proof. intros H. now apply (strip_pad "" s ws). Qed.

Lemma int_lstrip_all_space ws :
  all_int_space ws = true → PyStr.int_lstrip ws = "".
Proof.
  induction ws as [|c r IH]; simpl; [reflexivity|].
  intros H. apply andb_true_iff in H as [-> H]. auto.
Qed.

Lemma int_rstrip_all_space ws :
  all_int_space ws = true → PyStr.int_rstrip ws = "".
Proof.
  induction ws as [|c r IH]; simpl; [reflexivity|].
  intros H. apply andb_true_iff in H as [-> H]. rewrite (IH H). reflexivity.
Qed.

Lemma int_lstrip_pad ws s :
  all_int_space ws = true → PyStr.int_lstrip (ws ++ s) = PyStr.int_lstrip s.
Proof.
  induction ws as [|c r IH]; app_simpl; [reflexivity|].
  intros H. apply andb_true_iff in H as [-> H]. auto.
Qed.

Lemma int_rstrip_pad s ws :
  all_int_space ws = true → PyStr.int_rstrip (s ++ ws) = PyStr.int_rstrip s.
Proof.
  intros H. induction s as [|c r IH]; app_simpl.
  - apply int_rstrip_all_space, H.
  - rewrite IH. reflexivity.
Qed.

Lemma int_rstrip_lstrip_pad s ws :
  all_int_space ws = true →
  PyStr.int_rstrip (PyStr.int_lstrip (s ++ ws))
  = PyStr.int_rstrip (PyStr.int_lstrip s).
Proof.
  intros H. induction s as [|c r IH]; app_simpl.
  - rewrite (int_lstrip_all_space ws H). reflexivity.
  - destruct (PyStr.is_int_space c); [exact IH|].
    rewrite <- append_cons. apply int_rstrip_pad, H.
Qed.

Lemma int_strip_pad ws s ws' :
  all_int_space ws = true → all_int_space ws' = true →
  PyStr.int_strip (ws ++ s ++ ws') = PyStr.int_strip s.
Proof.
  intros H H'. unfold PyStr.int_strip.
  rewrite (int_lstrip_pad ws _ H). apply int_rstrip_lstrip_pad, H'.
Qed.

(** The blanks [int] skips around a literal are invisible to it. *)
Lemma python_int_pad ws s ws' :
  all_int_space ws = true → all_int_space ws' = true →
  PyStr.python_int (ws ++ s ++ ws') = PyStr.python_int s.
Proof.
  intros H H'. unfold PyStr.python_int. rewrite int_strip_pad by assumption.
  reflexivity.
Qed.

Lemma all_space_no_comma ws :
  all_space ws = true → PyStr.count_commas ws = 0%nat.
Proof.
  induction ws as [|c r IH]; simpl; [reflexivity|].
  intros H. apply andb_true_iff in H as [Hc H]. rewrite (IH H).
  destruct (Ascii.eqb_spec c ",") as [->|]; [discriminate Hc | reflexivity].
Qed.

(** Splitting a line with a comma-free prefix or suffix: the prefix joins
    the first piece, the suffix the last. *)
Lemma split_comma_prefix a s :
  PyStr.count_commas a = 0%nat →
  PyStr.split_comma (a ++ s)
  = match PyStr.split_comma s with
    | h :: t => (a ++ h) :: t
    | [] => []
    end.
Proof.
  induction a as [|c r IH]; app_simpl.
  - intros _. destruct (PyStr.split_comma s); reflexivity.
  - destruct (Ascii.eqb c ","); [discriminate|]. simpl. intros H.
    rewrite (IH H).
    destruct (PyStr.split_comma s) eqn:E; [|reflexivity].
    now apply split_comma_nonempty in E.
Qed.

Lemma split_comma_suffix s b :
  PyStr.count_commas b = 0%nat →
  PyStr.split_comma (s ++ b) = append_last (PyStr.split_comma s) b.
Proof.
  intros Hb. induction s as [|c r IH]; app_simpl.
  - rewrite <- (append_empty_r b) at 1.
    rewrite (split_comma_prefix b "" Hb). simpl. now rewrite append_empty_r.
  - rewrite IH. destruct (Ascii.eqb c ",").
    + destruct (PyStr.split_comma r) as [|h t] eqn:E; [|reflexivity].
      now apply split_comma_nonempty in E.
    + destruct (PyStr.split_comma r) as [|h [|h' t]] eqn:E; try reflexivity.
      now apply split_comma_nonempty in E.
Qed.

Lemma strip_append_last l ws :
  all_space ws = true →
  PyStr.strip <$> append_last l ws = PyStr.strip <$> l.
Proof.
  intros H. induction l as [|h [|h' t] IH]; simpl in *.
  - reflexivity.
  - now rewrite strip_pad_r.
  - f_equal. exact IH.
Qed.

Lemma stack_pad ws s ws' :
  all_space ws = true → all_space ws' = true →
  PyStr.strip <$> PyStr.split_comma (ws ++ s ++ ws')
  = PyStr.strip <$> PyStr.split_comma s.
Proof.
  intros H H'.
  rewrite (split_comma_prefix ws _ (all_space_no_comma ws H)).
  rewrite (split_comma_suffix s ws' (all_space_no_comma ws' H')).
  rewrite <- (strip_append_last (PyStr.split_comma s) ws' H').
  destruct (append_last (PyStr.split_comma s) ws') as [|h t]; [reflexivity|].
  simpl. now rewrite strip_pad_l.
Qed.

(** X3: blanks typed before or after any of the four lines do not change
    the [candidate_input]: around the role and the stack any white space
    [strip] removes, around the experience and the budget the blanks [int]
    skips (TAB..CR and the space, not FS..US).  The padded lines are
    accepted exactly when the plain ones are, with the same result. *)
Theorem blank_padding_is_ignored role exp budget stack role' exp' budget'
    stack' w ci w' :
  padded role role' → int_padded exp exp' → int_padded budget budget' →
  padded stack stack' →
  make_candidate_input role' exp' budget' stack' w = (inr ci, w') ↔
  make_candidate_input role exp budget stack w = (inr ci, w').
Proof.
  intros (a1 & b1 & A1 & B1 & ->) (a2 & b2 & A2 & B2 & ->)
         (a3 & b3 & A3 & B3 & ->) (a4 & b4 & A4 & B4 & ->).
  split; intros H; apply make_candidate_input_fields in H
    as (-> & Hr & He & Hb & Hs); destruct ci as [r e b s]; simpl in *; subst.
  - rewrite python_int_pad in He, Hb by assumption.
    rewrite (make_candidate_input_ok _ _ _ _ _ _ _ He Hb).
    rewrite strip_pad, stack_pad by assumption. reflexivity.
  - rewrite <- (python_int_pad a2 exp b2) in He by assumption.
    rewrite <- (python_int_pad a3 budget b3) in Hb by assumption.
    rewrite (make_candidate_input_ok _ _ _ _ _ _ _ He Hb).
    rewrite strip_pad, stack_pad by assumption. reflexivity.
Qed.

Lemma blank_padding_is_ignored_witness :
  make_candidate_input "  Backend Developer " " 4  " "4000 " " Node.js "
    fresh_kernel = (inr inp_backend, fresh_kernel) ↔
  make_candidate_input "Backend Developer" "4" "4000" "Node.js"
    fresh_kernel = (inr inp_backend, fresh_kernel).
Proof.
  apply (blank_padding_is_ignored "Backend Developer" "4" "4000" "Node.js").
  - exists "  ", " ". repeat split; reflexivity.
  - exists " ", "  ". repeat split; reflexivity.
  - exists "", " ". repeat split; reflexivity.
  - exists " ", " ". repeat split; reflexivity.
Defined.

Lemma digit_facts c :
  PyStr.is_digit c = true →
  PyStr.is_int_space c = false ∧ Ascii.eqb c "+" = false ∧
  Ascii.eqb c "-" = false ∧ 0 ≤ PyStr.digit_value c.
Proof.
  destruct c as [[] [] [] [] [] [] [] []]; intros H;
    try discriminate H; repeat split; discriminate.
Qed.

Lemma int_rstrip_cons c r :
  PyStr.is_int_space c = false →
  PyStr.int_rstrip (String c r) = String c (PyStr.int_rstrip r).
Proof. intros H. simpl. rewrite H. reflexivity. Qed.

Lemma python_int_unsigned s :
  starts_with_digit s = true →
  PyStr.python_int s
  = if PyStr.max_str_digits <? PyStr.digit_count (PyStr.int_rstrip s)
    then None
    else PyStr.int_digits 0 false (PyStr.int_rstrip s).
Proof.
  destruct s as [|d r]; [discriminate|]. simpl. intros Hd.
  destruct (digit_facts d Hd) as (Hs & Hp & Hm & _).
  rewrite python_int_cases. unfold PyStr.int_strip.
  cbn [PyStr.int_lstrip]. rewrite Hs, (int_rstrip_cons d r Hs), Hp, Hm.
  reflexivity.
Qed.

(** A minus sign before an unsigned literal negates its value. *)
Lemma python_int_minus s :
  starts_with_digit s = true →
  PyStr.python_int ("-" ++ s) = Z.opp <$> PyStr.python_int s.
Proof.
  intros H. rewrite (python_int_unsigned s H), python_int_cases.
  unfold PyStr.int_strip. change ("-" ++ s) with (String "-" s).
  change (PyStr.int_lstrip (String "-" s)) with (String "-" s).
  rewrite (int_rstrip_cons "-"%char s) by reflexivity.
  change (PyStr.digit_count (String "-" (PyStr.int_rstrip s)))
    with (PyStr.digit_count (PyStr.int_rstrip s)).
  destruct (PyStr.max_str_digits <? PyStr.digit_count (PyStr.int_rstrip s));
    reflexivity.
Qed.

Lemma int_digits_nonneg s acc b z :
  0 ≤ acc → PyStr.int_digits acc b s = Some z → 0 ≤ z.
Proof.
  revert acc b. induction s as [|c r IH]; intros acc b Ha; simpl.
  - destruct b; [|discriminate]. intros [= <-]. exact Ha.
  - destruct (PyStr.is_digit c) eqn:Hd.
    + apply IH. destruct (digit_facts c Hd) as (_ & _ & _ & Hv). lia.
    + destruct (Ascii.eqb c "_" && b); [apply IH; exact Ha | discriminate].
Qed.

Lemma python_int_unsigned_nonneg s z :
  starts_with_digit s = true → PyStr.python_int s = Some z → 0 ≤ z.
Proof.
  intros H. rewrite (python_int_unsigned s H).
  destruct (PyStr.max_str_digits <? PyStr.digit_count (PyStr.int_rstrip s));
    [discriminate|].
  apply int_digits_nonneg. lia.
Qed.

(** X4: the input cell checks no sign.  Lines that start with a digit
    give numbers that are not negative, and the same lines with a minus
    sign in front are accepted too and give the negated experience and
    budget. *)
Theorem minus_sign_is_accepted role exp budget stack w ci w' :
  starts_with_digit exp = true → starts_with_digit budget = true →
  make_candidate_input role exp budget stack w = (inr ci, w') →
  0 ≤ ci_experience_years ci ∧ 0 ≤ ci_budget ci ∧
  make_candidate_input role ("-" ++ exp) ("-" ++ budget) stack w
  = (inr {| ci_role := ci_role ci;
            ci_experience_years := - ci_experience_years ci;
            ci_budget := - ci_budget ci;
            ci_stack := ci_stack ci |}, w').
Proof.
  intros De Db H.
  apply make_candidate_input_fields in H as (-> & Hr & He & Hb & Hs).
  split; [exact (python_int_unsigned_nonneg exp _ De He)|].
  split; [exact (python_int_unsigned_nonneg budget _ Db Hb)|].
  rewrite (make_candidate_input_ok role ("-" ++ exp) ("-" ++ budget) stack w
             (- ci_experience_years ci) (- ci_budget ci)).
  - rewrite Hr, Hs. reflexivity.
  - rewrite (python_int_minus exp De), He. reflexivity.
  - rewrite (python_int_minus budget Db), Hb. reflexivity.
Qed.

Lemma minus_sign_is_accepted_witness :
  0 ≤ ci_experience_years inp_backend ∧ 0 ≤ ci_budget inp_backend ∧
  make_candidate_input "Backend Developer" ("-" ++ "4") ("-" ++ "4000")
    "Node.js" fresh_kernel
  = (inr {| ci_role := ci_role inp_backend;
            ci_experience_years := - ci_experience_years inp_backend;
            ci_budget := - ci_budget inp_backend;
            ci_stack := ci_stack inp_backend |}, fresh_kernel).
Proof.
  apply (minus_sign_is_accepted "Backend Developer" "4" "4000" "Node.js"
           fresh_kernel inp_backend fresh_kernel); reflexivity.
Defined.

Lemma int_char_false c :
  int_char c = false →
  PyStr.is_digit c = false ∧ PyStr.is_int_space c = false ∧
  c ≠ "+"%char ∧ c ≠ "-"%char ∧ c ≠ "_"%char.
Proof.
  unfold int_char. rewrite !orb_false_iff.
  intros ((((Hd & Hs) & Hp) & Hm) & Hu).
  repeat split; auto; intros ->; discriminate.
Qed.

(** X5: an experience or budget line that contains an ASCII character
    other than a digit, a sign, an underscore or one of the blanks [int]
    skips makes the dictionary display raise [ValueError] for a rejected
    line, leaving the kernel as it was. *)
Theorem foreign_character_raises_value_error c role exp budget stack w :
  is_ascii c = true → int_char c = false →
  occurs c exp ∨ occurs c budget →
  ∃ lit, make_candidate_input role exp budget stack w
         = (inl (ValueError lit), w) ∧
         (lit = exp ∨ lit = budget) ∧ PyStr.python_int lit = None.
Proof.
  intros _ Hc H. apply int_char_false in Hc as (Hd & Hs & Hp & Hm & Hu).
  unfold make_candidate_input, py_int, mbind, py_bind, mret, py_ret, raise.
  destruct (PyStr.python_int exp) as [e|] eqn:He.
  - destruct H as [H|H].
    + rewrite (python_int_rejects c exp) in He by assumption. discriminate.
    + pose proof (python_int_rejects c budget H Hd Hs Hp Hm Hu) as Hb.
      rewrite Hb. exists budget. auto.
  - exists exp. auto.
Qed.

Lemma foreign_character_raises_value_error_witness :
  ∃ lit, make_candidate_input "Backend Developer" "4" "4000 USD" "Node.js"
           fresh_kernel
         = (inl (ValueError lit), fresh_kernel) ∧
         (lit = "4" ∨ lit = "4000 USD") ∧ PyStr.python_int lit = None.
Proof.
  apply (foreign_character_raises_value_error "U").
  - reflexivity.
  - reflexivity.
  - right. simpl. tauto.
Defined.

(** Splitting distributes over a comma between two parts of a line. *)
Lemma split_comma_app s t :
  PyStr.split_comma (s ++ String "," t)
  = (PyStr.split_comma s ++ PyStr.split_comma t)%list.
Proof.
  induction s as [|c r IH]; app_simpl; [reflexivity|].
  rewrite IH.
  destruct (Ascii.eqb c ","); [reflexivity|].
  destruct (PyStr.split_comma r) as [|h l] eqn:E; [|reflexivity].
  now apply split_comma_nonempty in E.
Qed.

(** X6: the stack of a line made of two parts joined by a comma is the
    stack of the first part followed by the stack of the second; so a
    comma at the end of the line adds an empty entry. *)
Theorem stack_of_joined_lines role exp budget s t w ci w' :
  make_candidate_input role exp budget (s ++ "," ++ t) w = (inr ci, w') →
  ci_stack ci
  = ((PyStr.strip <$> PyStr.split_comma s)
     ++ (PyStr.strip <$> PyStr.split_comma t))%list ∧
  (t = "" → ci_stack ci = ((PyStr.strip <$> PyStr.split_comma s) ++ [""])%list).
Proof.
  intros H. apply make_candidate_input_fields in H as (_ & _ & _ & _ & Hs).
  change (s ++ "," ++ t) with (s ++ String "," t) in Hs.
  rewrite Hs, split_comma_app, fmap_app. split; [reflexivity|].
  intros ->. reflexivity.
Qed.

Lemma stack_of_joined_lines_witness :
  let ci := {| ci_role := "Backend Developer"; ci_experience_years := 4;
               ci_budget := 4000; ci_stack := ["Node.js"; "AWS"; ""] |} in
  ci_stack ci
  = ((PyStr.strip <$> PyStr.split_comma "Node.js, AWS")
     ++ (PyStr.strip <$> PyStr.split_comma ""))%list ∧
  ("" = "" →
   ci_stack ci
   = ((PyStr.strip <$> PyStr.split_comma "Node.js, AWS") ++ [""])%list).
Proof.
  intros ci.
  apply (stack_of_joined_lines "Backend Developer" "4" "4000"
           "Node.js, AWS" "" fresh_kernel ci fresh_kernel).
  reflexivity.
Defined.

(** * Further properties of the run *)

Lemma cell_main_completed endpoint ci w w' :
  ready ci w → cell_main endpoint w = (inr (), w') →
  ∃ o1 o2 o3 o4,
    endpoint (length (w_calls w)) (rq_profile ci) = inr o1 ∧
    endpoint (length (w_calls w) + 1)%nat (rq_match (w_db w) o1) = inr o2 ∧
    endpoint (length (w_calls w) + 2)%nat (rq_offer o1 o2) = inr o3 ∧
    endpoint (length (w_calls w) + 3)%nat (rq_send o2 o3) = inr o4 ∧
    w_calls w' = (w_calls w ++ script (w_db w) ci o1 o2 o3)%list ∧
    w_outputs w' = with_outputs o1 o2 o3 o4 (w_outputs w) ∧
    w_stdout w'
    = (w_stdout w ++ [(candidate_label ++ " " ++ o2 ++ nl)%string;
                      (status_label ++ " " ++ o4 ++ nl)%string])%list ∧
    w_globals w' !! "result" = Some (VDict o2 o4).
Proof.
  intros R. destruct w as [g db outs so disp calls].
  py_red_in R.
  destruct R as (C & (A1 & A2 & A3 & A4 & L & _) & T1 & T2 & T3 & T4).
  py_exec.
  match goal with
  | |- context [kickoff endpoint ?ts ?W] =>
      pose proof (kickoff_outcome endpoint ci W) as K;
      pose proof (kickoff_keeps same_stdout endpoint ts
                    (execute_task_same_stdout endpoint) W) as Kso;
      pose proof (kickoff_keeps (same_binding "task_profile") endpoint ts
                    (execute_task_same_binding _ endpoint) W) as K1;
      pose proof (kickoff_keeps (same_binding "task_match") endpoint ts
                    (execute_task_same_binding _ endpoint) W) as K2;
      pose proof (kickoff_keeps (same_binding "task_offer") endpoint ts
                    (execute_task_same_binding _ endpoint) W) as K3;
      pose proof (kickoff_keeps (same_binding "task_send") endpoint ts
                    (execute_task_same_binding _ endpoint) W) as K4;
      change ts with (declared_tasks ci) in *;
      destruct (kickoff endpoint (declared_tasks ci) W) as [[e|rs] w2]
  end.
  - intros [=].
  - destruct w2 as [g2 db2 outs2 so2 disp2 calls2].
    py_red_in Kso. py_red_in K1. py_red_in K2. py_red_in K3. py_red_in K4.
    revert K1 K2 K3 K4. py_lookup. intros K1 K2 K3 K4.
    py_red_in K.
    inversion K as [o1 o2 o3 o4 w'' E1 E2 E3 E4 Hc Ho|]; subst.
    py_red_in E1. py_red_in E2. py_red_in E3. py_red_in E4.
    py_red_in Hc. py_red_in Ho. subst outs2.
    py_exec. intros [= <-]. py_red.
    exists o1, o2, o3, o4. unfold with_outputs. repeat split; auto.
    all: first [ rewrite <- !app_assoc; reflexivity
               | py_lookup; reflexivity ].
Qed.

(** A completed run in full. *)
Lemma run_completed_full endpoint op w w' :
  run endpoint op w = (inr (), w') →
  ∃ ci o1 o2 o3 o4,
    parsed op ci ∧
    endpoint (length (w_calls w)) (rq_profile ci) = inr o1 ∧
    endpoint (length (w_calls w) + 1)%nat (rq_match candidate_db o1) = inr o2 ∧
    endpoint (length (w_calls w) + 2)%nat (rq_offer o1 o2) = inr o3 ∧
    endpoint (length (w_calls w) + 3)%nat (rq_send o2 o3) = inr o4 ∧
    new_calls w w' = script candidate_db ci o1 o2 o3 ∧
    w_outputs w' = with_outputs o1 o2 o3 o4 (w_outputs w) ∧
    w_stdout w'
    = (w_stdout w ++ ("---" ++ nl)%string :: prompt_lines
         ++ [(input_received op ++ nl)%string;
             (candidate_label ++ " " ++ o2 ++ nl)%string;
             (status_label ++ " " ++ o4 ++ nl)%string])%list ∧
    w_globals w' !! "result" = Some (VDict o2 o4).
Proof.
  unfold run. intros H.
  destruct (PyStr.python_int (exp_inp op)) as [e|] eqn:He.
  2: { destruct (input_cells_bad op w (exp_inp op)) as (w1 & E & S); [auto|].
       rewrite (bind_err _ _ _ _ _ E) in H. discriminate H. }
  destruct (PyStr.python_int (budget_inp op)) as [b|] eqn:Hb.
  2: { destruct (input_cells_bad op w (budget_inp op)) as (w1 & E & S);
         [right; eauto|].
       rewrite (bind_err _ _ _ _ _ E) in H. discriminate H. }
  set (ci := {| ci_role := PyStr.strip (role_inp op);
                ci_experience_years := e; ci_budget := b;
                ci_stack := PyStr.strip <$> PyStr.split_comma (stack_inp_raw op) |}).
  assert (P : parsed op ci) by (repeat split; assumption).
  destruct (input_cells_run op w ci P) as (w1 & E & R & D & S).
  rewrite (bind_ok _ _ _ _ _ E) in H.
  frame_of (input_cells_same_calls op w) E.
  frame_of (input_cells_same_outputs op w) E.
  destruct (cell_main_completed endpoint ci w1 w' R H)
    as (o1 & o2 & o3 & o4 & E1 & E2 & E3 & E4 & Hc & Ho & Hso & Hr).
  rewrite D in E2, Hc. rewrite F in E1, E2, E3, E4, Hc. rewrite F0 in Ho.
  exists ci, o1, o2, o3, o4. repeat split; try assumption.
  - apply new_calls_app. exact Hc.
  - rewrite Hso, S, <- app_assoc. f_equal.
Qed.

(** X8: after a completed run every task has a recorded output; the
    dictionary bound to [result] holds the output of the match task and of
    the send task, and the last two lines on standard output are these two
    texts, each after its label and a blank. *)
Theorem main_reports_match_and_send endpoint op w w' :
  run endpoint op w = (inr (), w') →
  ∃ candidate status before,
    is_Some (w_outputs w' !! task_profile) ∧
    is_Some (w_outputs w' !! task_offer) ∧
    w_outputs w' !! task_match = Some candidate ∧
    w_outputs w' !! task_send = Some status ∧
    w_globals w' !! "result" = Some (VDict candidate status) ∧
    w_stdout w'
    = (before ++ [(candidate_label ++ " " ++ candidate ++ nl)%string;
                  (status_label ++ " " ++ status ++ nl)%string])%list.
Proof.
  intros H. apply run_completed_full in H
    as (ci & o1 & o2 & o3 & o4 & P & E1 & E2 & E3 & E4 & Hc & Ho & Hs & Hr).
  exists o2, o4,
    (w_stdout w ++ ("---" ++ nl)%string :: prompt_lines
       ++ [(input_received op ++ nl)%string])%list.
  rewrite Ho. unfold with_outputs. repeat split.
  - exists o1. py_lookup. reflexivity.
  - exists o3. py_lookup. reflexivity.
  - py_lookup. reflexivity.
  - py_lookup. reflexivity.
  - exact Hr.
  - rewrite Hs, <- app_assoc. f_equal.
Qed.

Lemma main_reports_match_and_send_witness :
  let w' := (run canned_endpoint op_backend fresh_kernel).2 in
  ∃ candidate status before,
    is_Some (w_outputs w' !! task_profile) ∧
    is_Some (w_outputs w' !! task_offer) ∧
    w_outputs w' !! task_match = Some candidate ∧
    w_outputs w' !! task_send = Some status ∧
    w_globals w' !! "result" = Some (VDict candidate status) ∧
    w_stdout w'
    = (before ++ [(candidate_label ++ " " ++ candidate ++ nl)%string;
                  (status_label ++ " " ++ status ++ nl)%string])%list.
Proof.
  intros w'.
  apply (main_reports_match_and_send canned_endpoint op_backend fresh_kernel).
  vm_compute. reflexivity.
Defined.

Lemma script_requests db ci o1 o2 o3 rq :
  In rq (script db ci o1 o2 o3) →
  rq_agent rq = declared_agent (rq_task rq) ∧
  ∀ d o, In (d, o) (rq_context rq) → earlier d (rq_task rq).
Proof.
  unfold earlier. simpl.
  intros [<-|[<-|[<-|[<-|[]]]]]; (split; [reflexivity|]); simpl;
    intros d o H;
    repeat (destruct H as [[= <- <-]|H]; [simpl; lia|]); destruct H.
Qed.

(** X9: in every run, failed or not, each execution is handed to the
    agent its task was declared with, and its context only holds outputs
    of tasks declared earlier in the list. *)
Theorem requests_follow_declarations endpoint op w rq :
  In rq (new_calls w (notebook endpoint op w).2) →
  rq_agent rq = declared_agent (rq_task rq) ∧
  ∀ d o, In (d, o) (rq_context rq) → earlier d (rq_task rq).
Proof.
  unfold new_calls. rewrite notebook_calls. fold (new_calls w (run endpoint op w).2).
  pose proof (run_outcome endpoint op w) as O.
  destruct (run endpoint op w) as [r w']. cbn [fst snd] in *.
  inversion O as [w1 He Hc Ho Hs Hr|b w1 He Hb Hc Ho Hs Hr
                 |ci k o1 o2 o3 rq' msg w1 P Hk Hm Hc Hs Hr
                 |ci o1 o2 o3 o4 w1 P E1 E2 E3 E4 Hc]; subst.
  - rewrite (new_calls_app w w' []); [intros []|].
    rewrite Hc, app_nil_r. reflexivity.
  - rewrite (new_calls_app w w' []); [intros []|].
    rewrite Hc, app_nil_r. reflexivity.
  - rewrite (new_calls_app _ _ _ Hc). intros H.
    apply In_take in H. eapply script_requests; exact H.
  - rewrite (new_calls_app _ _ _ Hc). apply script_requests.
Qed.

Lemma requests_follow_declarations_witness :
  let rq := rq_offer "{candidate_profile}" "{matched_candidate: c-202}" in
  rq_agent rq = declared_agent (rq_task rq) ∧
  ∀ d o, In (d, o) (rq_context rq) → earlier d (rq_task rq).
Proof.
  intros rq.
  apply (requests_follow_declarations canned_endpoint op_backend fresh_kernel).
  vm_compute. right. right. left. reflexivity.
Defined.



Lemma cell_setup_same_binding_candidate_input :
  keeps (same_binding "candidate_input") cell_setup.
Proof. unfold_cells. keeps_auto. Qed.

Lemma cell_agents_same_binding_candidate_input :
  keeps (same_binding "candidate_input") cell_agents.
Proof. unfold_cells. keeps_auto. Qed.

Lemma cell_setup_same_binding_task_profile :
  keeps (same_binding "task_profile") cell_setup.
Proof. unfold_cells. keeps_auto. Qed.

Lemma cell_agents_same_binding_task_profile :
  keeps (same_binding "task_profile") cell_agents.
Proof. unfold_cells. keeps_auto. Qed.

(** The task cell when [int] rejects the experience line. *)
Lemma cell_tasks_bad_experience_bindings op w :
  PyStr.python_int (exp_inp op) = None →
  ∃ w1, cell_tasks op w = (inl (ValueError (exp_inp op)), w1) ∧
        w_stdout w1 = (w_stdout w ++ prompt_lines)%list ∧
        w_globals w1 !! "role_inp" = Some (VStr (role_inp op)) ∧
        w_globals w1 !! "exp_inp" = Some (VStr (exp_inp op)) ∧
        w_globals w1 !! "budget_inp" = Some (VStr (budget_inp op)) ∧
        w_globals w1 !! "stack_inp_raw" = Some (VStr (stack_inp_raw op)) ∧
        w_globals w1 !! "candidate_input" = w_globals w !! "candidate_input" ∧
        w_globals w1 !! "task_profile" = w_globals w !! "task_profile".
Proof.
  intros He. destruct w. py_red. rewrite He. py_red.
  eexists. split; [reflexivity|]. py_red. py_lookup.
  repeat split; try reflexivity.
  rewrite <- !app_assoc. reflexivity.
Qed.

(** X7: when [int] rejects the experience line the error names that
    line, whatever the budget line holds.  All four questions have been
    asked by then and the four raw lines stay bound, while
    [candidate_input] and the tasks are not (re)bound. *)
Theorem bad_experience_is_reported_first endpoint op w :
  PyStr.python_int (exp_inp op) = None →
  ∃ w', notebook endpoint op w = (inl (ValueError (exp_inp op)), w') ∧
        w_stdout w' = (w_stdout w ++ ("---" ++ nl)%string :: prompt_lines)%list ∧
        w_globals w' !! "role_inp" = Some (VStr (role_inp op)) ∧
        w_globals w' !! "exp_inp" = Some (VStr (exp_inp op)) ∧
        w_globals w' !! "budget_inp" = Some (VStr (budget_inp op)) ∧
        w_globals w' !! "stack_inp_raw" = Some (VStr (stack_inp_raw op)) ∧
        w_globals w' !! "candidate_input" = w_globals w !! "candidate_input" ∧
        w_globals w' !! "task_profile" = w_globals w !! "task_profile".
Proof.
  intros He.
  destruct (cell_setup_run w) as (w1 & E1 & C1 & S1).
  destruct (cell_agents_run w1 C1) as (w2 & E2 & C2 & A2 & D2 & S2).
  destruct (cell_tasks_bad_experience_bindings op w2 He)
    as (w3 & E3 & S3 & B1 & B2 & B3 & B4 & B5 & B6).
  frame_of (cell_setup_same_binding_candidate_input w) E1.
  frame_of (cell_agents_same_binding_candidate_input w1) E2.
  frame_of (cell_setup_same_binding_task_profile w) E1.
  frame_of (cell_agents_same_binding_task_profile w1) E2.
  exists w3. unfold notebook, run, input_cells.
  rewrite (bind_err _ _ _ (ValueError (exp_inp op)) w3);
    [|apply bind_err;
      rewrite (bind_ok _ _ _ _ _ E1), (bind_ok _ _ _ _ _ E2); exact E3].
  split; [reflexivity|]. split.
  { rewrite S3, S2, S1, <- app_assoc. reflexivity. }
  repeat split; try assumption; congruence.
Qed.

Lemma bad_experience_is_reported_first_witness :
  let op := {| role_inp := "QA"; exp_inp := "five";
               budget_inp := "plenty"; stack_inp_raw := "Java" |} in
  ∃ w', notebook canned_endpoint op fresh_kernel
        = (inl (ValueError (exp_inp op)), w') ∧
        w_stdout w'
        = (w_stdout fresh_kernel
             ++ ("---" ++ nl)%string :: prompt_lines)%list ∧
        w_globals w' !! "role_inp" = Some (VStr (role_inp op)) ∧
        w_globals w' !! "exp_inp" = Some (VStr (exp_inp op)) ∧
        w_globals w' !! "budget_inp" = Some (VStr (budget_inp op)) ∧
        w_globals w' !! "stack_inp_raw" = Some (VStr (stack_inp_raw op)) ∧
        w_globals w' !! "candidate_input"
        = w_globals fresh_kernel !! "candidate_input" ∧
        w_globals w' !! "task_profile"
        = w_globals fresh_kernel !! "task_profile".
Proof.
  intros op.
  apply (bad_experience_is_reported_first canned_endpoint op fresh_kernel).
  reflexivity.
Defined.

(** X13: the display cell.  With [final_status] unbound it raises
    [NameError]; bound to an object with a [raw] attribute it renders that
    text unchanged and binds it to [markdown_text]; bound to anything else
    it raises [AttributeError].  In the two failing cases nothing is
    rendered and [markdown_text] is left as it was. *)
Theorem display_cell_cases w :
  match w_globals w !! "final_status" with
  | None =>
      (cell_display w).1 = inl (NameError "final_status") ∧
      w_display (cell_display w).2 = w_display w ∧
      w_globals (cell_display w).2 !! "markdown_text"
      = w_globals w !! "markdown_text"
  | Some (VTaskOutput raw) =>
      (cell_display w).1 = inr () ∧
      w_display (cell_display w).2 = (w_display w ++ [raw])%list ∧
      w_globals (cell_display w).2 !! "markdown_text" = Some (VStr raw)
  | Some _ =>
      (cell_display w).1 = inl (AttributeError "raw") ∧
      w_display (cell_display w).2 = w_display w ∧
      w_globals (cell_display w).2 !! "markdown_text"
      = w_globals w !! "markdown_text"
  end.
Proof.
  destruct w as [g db outs so disp calls]. cbn [w_globals].
  destruct (g !! "final_status") as [v|] eqn:E.
  - destruct v; py_exec; py_lookup; repeat split; reflexivity.
  - py_exec. py_lookup. repeat split; reflexivity.
Qed.

(** X12: a run does not depend on what earlier cells or runs left in the
    kernel: on two kernels where the endpoint answers alike, the outcome
    and the requests issued are the same. *)
Theorem run_ignores_kernel_leftovers endpoint op w1 w2 :
  (∀ k rq, endpoint (length (w_calls w1) + k)%nat rq
           = endpoint (length (w_calls w2) + k)%nat rq) →
  (run endpoint op w1).1 = (run endpoint op w2).1 ∧
  new_calls w1 (run endpoint op w1).2 = new_calls w2 (run endpoint op w2).2.
Proof.
  intros H.
  destruct (run_refines_trace endpoint op w1) as [-> ->].
  destruct (run_refines_trace endpoint op w2) as [-> ->].
  assert (T : ∀ db ci,
             crew_trace endpoint (length (w_calls w1)) db ci
             = crew_trace endpoint (length (w_calls w2)) db ci).
  { intros db ci. unfold crew_trace.
    pose proof (H 0%nat) as H0. rewrite !Nat.add_0_r in H0.
    rewrite H0.
    destruct (endpoint (length (w_calls w2)) (rq_profile ci)) as [m|o1];
      [reflexivity|].
    rewrite (H 1%nat).
    destruct (endpoint (length (w_calls w2) + 1)%nat (rq_match db o1))
      as [m|o2]; [reflexivity|].
    rewrite (H 2%nat).
    destruct (endpoint (length (w_calls w2) + 2)%nat (rq_offer o1 o2))
      as [m|o3]; [reflexivity|].
    rewrite (H 3%nat). reflexivity. }
  unfold run_trace.
  destruct (PyStr.python_int (exp_inp op)); [|split; reflexivity].
  destruct (PyStr.python_int (budget_inp op)); [|split; reflexivity].
  cbv zeta. rewrite T. split; reflexivity.
Qed.

Lemma run_ignores_kernel_leftovers_witness :
  let used := (run canned_endpoint op_backend fresh_kernel).2 in
  (run canned_endpoint op_backend used).1
  = (run canned_endpoint op_backend fresh_kernel).1 ∧
  new_calls used (run canned_endpoint op_backend used).2
  = new_calls fresh_kernel (run canned_endpoint op_backend fresh_kernel).2.
Proof.
  intros used.
  apply (run_ignores_kernel_leftovers canned_endpoint op_backend used
           fresh_kernel).
  intros k rq. reflexivity.
Defined.
